(** * Finance tracker: ledger store and analytics engine

    A shallow embedding of the class [FinanceTracker] of [main.py] and
    the properties of its specification.

    Conventions of the embedding:
    - a transaction is the dictionary built by [add_transaction], with the
      keys "amount", "category", "date" and "type"; it is a record here;
    - amounts are Python numbers; they are exact rationals ([Qc]) here, so
      sums and quotients are the mathematical ones;
    - the date of a stored transaction is a string (the code stores
      [date.isoformat()] and reads it back with [date.fromisoformat]);
    - methods run in a state-and-exception monad over the object and the
      file system;
    - [json.dump] and [json.load] are library functions: they are
      parameters of the persistence section, with the round-trip contract
      of the library as its only assumption. *)

From Stdlib Require Import Ascii String QArith Qcanon ZifyNat.
From stdpp Require Import base option list strings gmap.

Set Warnings "-abstract-large-number".

Local Open Scope string_scope.
Local Open Scope nat_scope.
Local Open Scope list_scope.

(** ** Calendar dates ([datetime.date]) *)

Record date := Date { year : nat; month : nat; day : nat }.

#[global] Instance date_eq_dec : EqDecision date.
Proof. solve_decision. Defined.

Definition is_leap (y : nat) : bool :=
  (y mod 4 =? 0) && (negb (y mod 100 =? 0) || (y mod 400 =? 0)).

Definition days_in_month (y m : nat) : nat :=
  match m with
  | 2 => if is_leap y then 29 else 28
  | 4 | 6 | 9 | 11 => 30
  | _ => 31
  end.

Definition MAXYEAR : nat := 9999.

(** The checks of the constructor [datetime.date(year, month, day)]. *)
Definition valid_date (d : date) : Prop :=
  1 ≤ year d ≤ MAXYEAR ∧ 1 ≤ month d ≤ 12 ∧ 1 ≤ day d ≤ days_in_month (year d) (month d).

#[global] Instance valid_date_dec d : Decision (valid_date d).
Proof. unfold valid_date. apply _. Defined.

(** [datetime.date(y, m, d)]: [None] stands for [ValueError]. *)
Definition date_new (y m d : nat) : option date :=
  if decide (valid_date (Date y m d)) then Some (Date y m d) else None.

(** Dates compare like the tuples (year, month, day). *)
Definition date_le (a b : date) : Prop :=
  year a < year b
  ∨ (year a = year b ∧ (month a < month b ∨ (month a = month b ∧ day a ≤ day b))).

#[global] Instance date_le_dec a b : Decision (date_le a b).
Proof. unfold date_le. apply _. Defined.

(** *** [isoformat] and [fromisoformat] *)

Definition digit (n : nat) : ascii := ascii_of_nat (48 + n mod 10).

(** ["%04d-%02d-%02d" % (year, month, day)]; a date has at most four digits
    of year and two of month and day. *)
Definition isoformat (d : date) : string :=
  String (digit (year d / 1000)) (String (digit (year d / 100))
  (String (digit (year d / 10)) (String (digit (year d))
  (String "-" (String (digit (month d / 10)) (String (digit (month d))
  (String "-" (String (digit (day d / 10)) (String (digit (day d)) EmptyString)))))))))%char.

Definition digit_val (c : ascii) : option nat :=
  let n := nat_of_ascii c in
  if decide (48 ≤ n ≤ 57) then Some (n - 48) else None.

(** Reads exactly [k] decimal digits. *)
Fixpoint parse_digits (k : nat) (acc : nat) (s : string) : option (nat * string) :=
  match k with
  | 0 => Some (acc, s)
  | S k' =>
      match s with
      | String c s' => v ← digit_val c; parse_digits k' (acc * 10 + v) s'
      | EmptyString => None
      end
  end.

Definition expect (c : ascii) (s : string) : option string :=
  match s with
  | String c' s' => if decide (c' = c) then Some s' else None
  | EmptyString => None
  end.

(** [datetime.date.fromisoformat] on the form [YYYY-MM-DD] that [isoformat]
    writes, then the checks of the constructor; every version of the
    interpreter reads this form, and reads it so. [None] stands for
    [ValueError], which is what the versions up to 3.10 raise on any other
    string; the later ones read further ISO forms ([YYYYMMDD], week dates).
    The theorems on the filter use the reader where the versions agree:
    on stored dates that it reads. *)
Definition fromisoformat (s : string) : option date :=
  '(y, s) ← parse_digits 4 0 s;
  s ← expect "-"%char s;
  '(m, s) ← parse_digits 2 0 s;
  s ← expect "-"%char s;
  '(d, s) ← parse_digits 2 0 s;
  if decide (s = EmptyString) then date_new y m d else None.

(** ** Transactions and the tracker object *)

(** The dictionary [{"amount": .., "category": .., "date": .., "type": ..}]. *)
Record transaction := Transaction {
  t_amount : Qc;
  t_category : string;
  t_date : string;
  t_type : string
}.

#[global] Instance transaction_eq_dec : EqDecision transaction.
Proof. solve_decision. Defined.

(** The attributes of a [FinanceTracker]. [predefined_categories] is
    assigned once, in [__init__], to the literal below and never again; it
    is a constant here. *)
Record FinanceTracker := {
  transactions : list transaction;
  filename : string
}.

Definition predefined_categories : list string :=
  ["Salary"; "Groceries"; "Furniture"; "Rent"; "Recreation"].

(** ** The monad of the methods

    A method reads and writes the attributes of [self] and the files; it
    returns a value or raises. The files are a finite map from names to
    their content; every file of the map can be opened, for reading and
    for writing, and a name outside the map is created by writing.

    The store of the embedding holds a list of transactions. A call that
    leaves in the store a value of another kind has the outcome
    [Escapes]: the program goes on, and the embedding does not follow
    it. *)

Inductive exn :=
  | ValueError
  | IndexError
  | JSONDecodeError
  | UnicodeDecodeError
  | RecursionError.

Inductive outcome (A : Type) := Return (a : A) | Raise (e : exn) | Escapes.
Arguments Return {A} a.
Arguments Raise {A} e.
Arguments Escapes {A}.

Record world := World { self : FinanceTracker; files : gmap string string }.

Definition M (A : Type) : Type := world → outcome A * world.

#[global] Instance M_ret : MRet M := λ A a w, (Return a, w).

#[global] Instance M_bind : MBind M := λ A B f m w,
  match m w with
  | (Return a, w') => f a w'
  | (Raise e, w') => (Raise e, w')
  | (Escapes, w') => (Escapes, w')
  end.

Definition gets {A} (f : FinanceTracker → A) : M A := λ w, (Return (f (self w)), w).

(** [self.transactions = ts] *)
Definition set_transactions (ts : list transaction) : M unit := λ w,
  (Return tt, World {| transactions := ts; filename := filename (self w) |} (files w)).

Definition raise {A} (e : exn) : M A := λ w, (Raise e, w).

Definition escapes {A} : M A := λ w, (Escapes, w).

(** A partial library call: [None] raises [e]. *)
Definition try_call {A} (e : exn) (o : option A) : M A :=
  match o with Some a => mret a | None => raise e end.

(** Reading a file that does not exist gives [None] ([FileNotFoundError]). *)
Definition read_file (name : string) : M (option string) := λ w,
  (Return (files w !! name), w).

(** Writing replaces the whole content of the file, or creates the file. *)
Definition write_file (name text : string) : M unit := λ w,
  (Return tt, World (self w) (<[name := text]> (files w))).

(** ** Python primitives *)

(** [sum(xs)]: the additions are made from the left, starting from 0. *)
Definition py_sum (xs : list Qc) : Qc := foldl Qcplus 0%Qc xs.

(** [del l[i]]: a negative index counts from the end; [None] stands for
    [IndexError]. *)
Definition py_del {A} (i : Z) (l : list A) : option (list A) :=
  let n := Z.of_nat (length l) in
  if decide (0 ≤ i < n)%Z then Some (delete (Z.to_nat i) l)
  else if decide (- n ≤ i < 0)%Z then Some (delete (Z.to_nat (i + n)) l)
  else None.

(** A dictionary from categories to numbers, in insertion order. *)
Definition dict : Type := list (string * Qc).

(** [d[k]] on a [defaultdict(float)]: a missing key reads as 0. *)
Fixpoint dict_get (k : string) (d : dict) : Qc :=
  match d with
  | [] => 0%Qc
  | (k', v) :: d' => if decide (k' = k) then v else dict_get k d'
  end.

(** [d[k] = v]: an existing key keeps its place, a new key goes last. *)
Fixpoint dict_set (k : string) (v : Qc) (d : dict) : dict :=
  match d with
  | [] => [(k, v)]
  | (k', v') :: d' => if decide (k' = k) then (k', v) :: d' else (k', v') :: dict_set k v d'
  end.

(** [d[k] += v] *)
Definition dict_iadd (k : string) (v : Qc) (d : dict) : dict :=
  dict_set k (dict_get k d + v)%Qc d.

Definition keys (d : dict) : list string := d.*1.
Definition values (d : dict) : list Qc := d.*2.

(** [{k: f(v) for k, v in d.items()}] *)
Definition dict_comprehension (f : Qc → Qc) (d : dict) : dict :=
  foldl (λ acc kv, dict_set kv.1 (f kv.2) acc) [] d.

(** ** The analytics engine *)

(** [[t for t in l if P(date.fromisoformat(t["date"]))]]: the first date
    that cannot be read raises [ValueError]. *)
Fixpoint filter_by_date (P : date → Prop) `{!∀ d, Decision (P d)}
    (l : list transaction) : option (list transaction) :=
  match l with
  | [] => Some []
  | t :: l' =>
      d ← fromisoformat (t_date t);
      kept ← filter_by_date P l';
      Some (if decide (P d) then t :: kept else kept)
  end.

(** The tests [if category] and [if transaction_type] fail on the empty
    string; [if start_date] and [if end_date] fail on [None] only, a date
    being always true. *)
Definition filter_transactions (category transaction_type : string)
    (start_date end_date : option date) : M (list transaction) :=
  filtered ← gets transactions;
  (* Filter by category *)
  let filtered :=
    if decide (category = "Other") then
      filter (λ t, t_category t ∉ predefined_categories) filtered
    else if decide (category ≠ EmptyString ∧ category ≠ "All") then
      filter (λ t, t_category t = category) filtered
    else filtered in
  (* Filter by transaction type *)
  let filtered :=
    if decide (transaction_type ≠ EmptyString ∧ transaction_type ≠ "All") then
      filter (λ t, t_type t = transaction_type) filtered
    else filtered in
  (* Filter by date range *)
  filtered ←
    match start_date with
    | Some start_date =>
        try_call ValueError (filter_by_date (λ d, date_le start_date d) filtered)
    | None => mret filtered
    end;
  filtered ←
    match end_date with
    | Some end_date =>
        try_call ValueError (filter_by_date (λ d, date_le d end_date) filtered)
    | None => mret filtered
    end;
  mret filtered.

Definition calculate_totals (transactions : list transaction) : Qc * Qc :=
  let total_income :=
    py_sum (t_amount <$> filter (λ t, t_type t = "Income") transactions) in
  let total_expense :=
    py_sum (t_amount <$> filter (λ t, t_type t = "Expense") transactions) in
  (total_income, total_expense).

(** One turn of the loop that sums the amounts by category. *)
Definition breakdown_step (totals : dict * dict) (t : transaction) : dict * dict :=
  let '(income_totals, expense_totals) := totals in
  if decide (t_type t = "Income") then
    (dict_iadd (t_category t) (t_amount t) income_totals, expense_totals)
  else if decide (t_type t = "Expense") then
    (income_totals, dict_iadd (t_category t) (t_amount t) expense_totals)
  else (income_totals, expense_totals).

(** [(amount / total * 100) if total > 0 else 0] *)
Definition percentage (total amount : Qc) : Qc :=
  if decide (0 < total)%Qc then (amount / total * Qc_of_Z 100)%Qc else 0%Qc.

Definition calculate_category_breakdown (transactions : list transaction) : dict * dict :=
  let '(income_totals, expense_totals) := foldl breakdown_step ([], []) transactions in
  let total_income := py_sum (values income_totals) in
  let income_percentages := dict_comprehension (percentage total_income) income_totals in
  let total_expense := py_sum (values expense_totals) in
  let expense_percentages := dict_comprehension (percentage total_expense) expense_totals in
  (income_percentages, expense_percentages).

Definition view_balance : M Qc :=
  transactions ← gets transactions;
  let income := py_sum (t_amount <$> filter (λ t, t_type t = "Income") transactions) in
  let expenses := py_sum (t_amount <$> filter (λ t, t_type t = "Expense") transactions) in
  mret (income - expenses)%Qc.

(** ** The ledger store *)

(** What [json.load] does on a file opened for reading, by the content of
    the file, the decoding of its bytes included: it returns a list of
    transaction records, or it returns another value ([null], a number, a
    list of something else), or it raises: [JSONDecodeError] on a text that
    is no JSON document, [UnicodeDecodeError] on bytes that are no text,
    [RecursionError] on a nesting deeper than the interpreter allows. *)
Inductive loaded :=
  | Ledger (ts : list transaction)
  | OtherValue
  | Raised (e : exn).

(** The two functions of the [json] library that the store calls:
    [json_dump ts] is the content that [json.dump(ts, file, indent=4)]
    writes, and [json_load content] what [json.load(file)] does on a file
    of this content. *)
Class Json := {
  json_dump : list transaction → string;
  json_load : string → loaded
}.

Section store.
Context `{!Json}.

Definition save_transactions : M unit :=
  name ← gets filename;
  ts ← gets transactions;
  write_file name (json_dump ts).

Definition load_transactions : M unit :=
  name ← gets filename;
  file ← read_file name;
  match file with
  | Some content =>
      match json_load content with
      | Ledger ts => set_transactions ts
      | OtherValue => escapes
      | Raised JSONDecodeError => set_transactions []   (* except json.JSONDecodeError *)
      | Raised e => raise e                             (* not caught *)
      end
  | None => set_transactions []                         (* except FileNotFoundError *)
  end.

(** [FinanceTracker(filename)] on the files [fs]. *)
Definition __init__ (filename : string) (fs : gmap string string) : outcome unit * world :=
  load_transactions (World {| transactions := []; filename := filename |} fs).

Definition add_transaction (amount : Qc) (category : string) (date : date)
    (transaction_type : string) : M unit :=
  let transaction :=
    {| t_amount := amount; t_category := category;
       t_date := isoformat date; t_type := transaction_type |} in
  ts ← gets transactions;
  set_transactions (ts ++ [transaction]);;
  save_transactions.

Definition delete_transaction (index : Z) : M unit :=
  ts ← gets transactions;
  if decide (0 ≤ index < Z.of_nat (length ts))%Z then
    ts ← try_call IndexError (py_del index ts);
    set_transactions ts;;
    save_transactions
  else mret tt.
End store.

(** ** A codec that meets the contract of the library

    A plain text form of a list of transactions, with a reader. It shows
    that the contract assumed of [json.dump] and [json.load] can be met, and
    instantiates the theorems on persistence at concrete stores. Numbers
    are written in unary and strings after their length, so that no
    escaping is needed. *)

Module TallyCodec.

Fixpoint enc_nat (n : nat) (rest : string) : string :=
  match n with
  | 0 => String "."%char rest
  | S n' => String "|"%char (enc_nat n' rest)
  end.

Fixpoint dec_nat (s : string) : option (nat * string) :=
  match s with
  | String c s' =>
      if decide (c = "|"%char) then '(n, rest) ← dec_nat s'; Some (S n, rest)
      else if decide (c = "."%char) then Some (0, s')
      else None
  | EmptyString => None
  end.

Fixpoint take_chars (n : nat) (s : string) : option (string * string) :=
  match n with
  | 0 => Some (EmptyString, s)
  | S n' =>
      match s with
      | String c s' => '(u, rest) ← take_chars n' s'; Some (String c u, rest)
      | EmptyString => None
      end
  end.

Definition enc_str (u : string) (rest : string) : string :=
  enc_nat (String.length u) (u +:+ rest).

Definition dec_str (s : string) : option (string * string) :=
  '(n, s) ← dec_nat s; take_chars n s.

Definition enc_Z (z : Z) (rest : string) : string :=
  String (if decide (z < 0)%Z then "-" else "+")%char (enc_nat (Z.abs_nat z) rest).

Definition dec_Z (s : string) : option (Z * string) :=
  match s with
  | String c s' =>
      '(n, rest) ← dec_nat s';
      if decide (c = "-"%char) then Some (- Z.of_nat n, rest)%Z
      else if decide (c = "+"%char) then Some (Z.of_nat n, rest)
      else None
  | EmptyString => None
  end.

Definition enc_Qc (q : Qc) (rest : string) : string :=
  enc_Z (Qnum q) (enc_nat (Pos.to_nat (Qden q)) rest).

Definition dec_Qc (s : string) : option (Qc * string) :=
  '(n, s) ← dec_Z s;
  '(d, s) ← dec_nat s;
  Some (Q2Qc (n # Pos.of_nat d), s).

Definition enc_transaction (t : transaction) (rest : string) : string :=
  enc_Qc (t_amount t) (enc_str (t_category t) (enc_str (t_date t) (enc_str (t_type t) rest))).

Definition dec_transaction (s : string) : option (transaction * string) :=
  '(a, s) ← dec_Qc s;
  '(c, s) ← dec_str s;
  '(d, s) ← dec_str s;
  '(y, s) ← dec_str s;
  Some (Transaction a c d y, s).

Fixpoint enc_all (ts : list transaction) (rest : string) : string :=
  match ts with
  | [] => rest
  | t :: ts' => enc_transaction t (enc_all ts' rest)
  end.

Fixpoint dec_all (n : nat) (s : string) : option (list transaction * string) :=
  match n with
  | 0 => Some ([], s)
  | S n' =>
      '(t, s) ← dec_transaction s;
      '(ts, s) ← dec_all n' s;
      Some (t :: ts, s)
  end.

Definition dump (ts : list transaction) : string :=
  enc_nat (length ts) (enc_all ts EmptyString).

Definition load (s : string) : option (list transaction) :=
  '(n, s) ← dec_nat s;
  '(ts, s) ← dec_all n s;
  if decide (s = EmptyString) then Some ts else None.

(** A content that the reader refuses is a text that is no document. *)
Definition codec : Json :=
  {| json_dump := dump;
     json_load content :=
       match load content with
       | Some ts => Ledger ts
       | None => Raised JSONDecodeError
       end |}.

End TallyCodec.

(** ** The selection that the specification describes

    The four conditions of the specification of the filter, each a
    predicate on one transaction, written from its words. The date of a
    transaction is the calendar date that its stored string denotes. *)

Definition date_of (t : transaction) : option date := fromisoformat (t_date t).

Definition category_pred (category : string) (t : transaction) : Prop :=
  if decide (category = "All" ∨ category = EmptyString) then True
  else if decide (category = "Other") then
    t_category t ∉ ["Salary"; "Groceries"; "Furniture"; "Rent"; "Recreation"]
  else t_category t = category.

Definition type_pred (transaction_type : string) (t : transaction) : Prop :=
  if decide (transaction_type = "All" ∨ transaction_type = EmptyString) then True
  else t_type t = transaction_type.

(** The date of [t] satisfies [P]. *)
Definition date_holds (P : date → Prop) (t : transaction) : Prop :=
  match date_of t with Some d => P d | None => False end.

Definition start_pred (start_date : option date) (t : transaction) : Prop :=
  match start_date with
  | None => True
  | Some s => date_holds (λ d, date_le s d) t
  end.

Definition end_pred (end_date : option date) (t : transaction) : Prop :=
  match end_date with
  | None => True
  | Some e => date_holds (λ d, date_le d e) t
  end.

Definition selected (category transaction_type : string)
    (start_date end_date : option date) (t : transaction) : Prop :=
  category_pred category t ∧ type_pred transaction_type t
  ∧ start_pred start_date t ∧ end_pred end_date t.

#[global] Instance category_pred_dec c t : Decision (category_pred c t).
Proof. unfold category_pred. repeat case_decide; apply _. Defined.

#[global] Instance type_pred_dec ty t : Decision (type_pred ty t).
Proof. unfold type_pred. case_decide; apply _. Defined.

#[global] Instance date_holds_dec P `{!∀ d, Decision (P d)} t : Decision (date_holds P t).
Proof. unfold date_holds. destruct (date_of t); apply _. Defined.

#[global] Instance start_pred_dec sd t : Decision (start_pred sd t).
Proof. unfold start_pred. destruct sd; apply _. Defined.

#[global] Instance end_pred_dec ed t : Decision (end_pred ed t).
Proof. unfold end_pred. destruct ed; apply _. Defined.

#[global] Instance selected_dec c ty sd ed t : Decision (selected c ty sd ed t).
Proof. unfold selected. apply _. Defined.

(** The stored date of every transaction of the list denotes a calendar
    date. *)
Definition dates_readable (ts : list transaction) : Prop :=
  Forall (λ t, is_Some (date_of t)) ts.

(** ** The sums that the specification describes *)

(** The sum of the amounts of the transactions of one type. *)
Fixpoint total_of (ty : string) (ts : list transaction) : Qc :=
  match ts with
  | [] => 0
  | t :: ts' =>
      if decide (t_type t = ty) then (t_amount t + total_of ty ts')%Qc else total_of ty ts'
  end.

(** The sum of the amounts of the transactions of one type and category. *)
Definition total_in (ty category : string) (ts : list transaction) : Qc :=
  total_of ty (filter (λ t, t_category t = category) ts).

(** The loop of [calculate_category_breakdown], for the transactions of one
    type: [totals[t["category"]] += t["amount"]] for each of them. *)
Definition sum_by_category (totals : dict) (ts : list transaction) : dict :=
  foldl (λ d t, dict_iadd (t_category t) (t_amount t) d) totals ts.

(** The percentages of one mapping as the specification states them: they
    sum to 100 when the total of the type is not zero, and are all 0 when
    it is zero. *)
Definition sums_to_100_or_zero (total : Qc) (percentages : dict) : Prop :=
  (total ≠ 0%Qc → py_sum (values percentages) = Qc_of_Z 100)
  ∧ (total = 0%Qc → ∀ c p, (c, p) ∈ percentages → p = 0%Qc).

Definition breakdown_as_stated (ts : list transaction) : Prop :=
  sums_to_100_or_zero (total_of "Income" ts) (calculate_category_breakdown ts).1
  ∧ sums_to_100_or_zero (total_of "Expense" ts) (calculate_category_breakdown ts).2.

(** The same with the test of the code: the percentages sum to 100 when the
    total is positive, and are all 0 otherwise. *)
Definition sums_to_100_if_positive (total : Qc) (percentages : dict) : Prop :=
  ((0 < total)%Qc → py_sum (values percentages) = Qc_of_Z 100)
  ∧ (¬ (0 < total)%Qc → ∀ c p, (c, p) ∈ percentages → p = 0%Qc).

(** The categories of the transactions of one type, in their order. *)
Definition categories_of (ty : string) (ts : list transaction) : list string :=
  t_category <$> filter (λ t, t_type t = ty) ts.

(** A transaction with a negative amount: the entry form accepts any
    number. *)
Definition refund : transaction :=
  {| t_amount := Qc_of_Z (-5); t_category := "Rent";
     t_date := "2024-01-01"; t_type := "Expense" |}.

(** ** A session of additions

    The arguments of one call of [add_transaction], the transaction that
    the call stores, and a run of calls in sequence. *)

Record entry := Entry {
  e_amount : Qc;
  e_category : string;
  e_date : date;
  e_type : string
}.

Definition stored (e : entry) : transaction :=
  {| t_amount := e_amount e; t_category := e_category e;
     t_date := isoformat (e_date e); t_type := e_type e |}.

Fixpoint add_all `{!Json} (es : list entry) : M unit :=
  match es with
  | [] => mret tt
  | e :: es' =>
      add_transaction (e_amount e) (e_category e) (e_date e) (e_type e);;
      add_all es'
  end.

(** ** The scenario of the specification

    Three additions to a new ledger, and the store that holds them. *)

Definition scenario : list entry :=
  [ Entry (Qc_of_Z 100) "Salary" (Date 2024 1 1) "Income";
    Entry (Qc_of_Z 50) "Groceries" (Date 2024 1 5) "Expense";
    Entry (Qc_of_Z 25) "Other-custom" (Date 2024 1 10) "Expense" ].

Definition ledger : world :=
  World {| transactions := stored <$> scenario; filename := "transactions.json" |} ∅.

(** A store whose file was cut short while it was written. *)
Definition damaged : world :=
  World {| transactions := stored <$> scenario; filename := "transactions.json" |}
        {[ "transactions.json" := "[{" ]}.

(** ** Sessions of the store

    A session is a run of calls of the two methods that change the store. *)

Inductive command := Add (e : entry) | Delete (index : Z).

Definition run_command `{!Json} (c : command) : M unit :=
  match c with
  | Add e => add_transaction (e_amount e) (e_category e) (e_date e) (e_type e)
  | Delete index => delete_transaction index
  end.

Fixpoint run_commands `{!Json} (cs : list command) : M unit :=
  match cs with
  | [] => mret tt
  | c :: cs' => run_command c;; run_commands cs'
  end.

(** The date given to an addition is a calendar date. *)
Definition valid_command (c : command) : Prop :=
  match c with
  | Add e => valid_date (e_date e)
  | Delete _ => True
  end.

(** The store [w] with the list [ts] in place of its own. *)
Definition with_transactions (ts : list transaction) (w : world) : world :=
  World {| transactions := ts; filename := filename (self w) |} (files w).


(** The categories that the filter offers besides "All". *)
Definition category_choices : list string := predefined_categories ++ ["Other"].

(** A list without its repetitions, each element at its first place. *)
Fixpoint first_occurrences (l : list string) : list string :=
  match l with
  | [] => []
  | x :: l' => x :: filter (λ y, y ≠ x) (first_occurrences l')
  end.

(** A bound that lets through at least what another lets through. *)
Definition wider_start (wide narrow : option date) : Prop :=
  match wide, narrow with
  | None, _ => True
  | Some s', Some s => date_le s' s
  | Some _, None => False
  end.

Definition wider_end (wide narrow : option date) : Prop :=
  match wide, narrow with
  | None, _ => True
  | Some e', Some e => date_le e e'
  | Some _, None => False
  end.

(** A session on the ledger of the scenario: an addition, the deletion of
    the first transaction, a second addition, and a deletion out of range. *)
Definition scenario_session : list command :=
  [ Add (Entry (Qc_of_Z 30) "Rent" (Date 2024 2 1) "Expense");
    Delete 0;
    Add (Entry (Qc_of_Z 12) "Books" (Date 2024 2 29) "Expense");
    Delete 7 ].

(** ** A reader with the limit of the parser on nesting

    [json.load] descends once for each bracket that opens the content, and
    the interpreter stops a descent deeper than its limit with
    [RecursionError], before it looks at what follows. The reader below
    does so on a content that opens with [deep] brackets, more than any
    interpreter allows, and reads every other content as [TallyCodec]
    does. *)

Module DeepCodec.

Definition deep : N := 200000%N.

Fixpoint opening_brackets (acc : N) (s : string) : N :=
  match s with
  | String c s' =>
      if decide (c = "["%char) then opening_brackets (N.succ acc) s' else acc
  | EmptyString => acc
  end.

Definition read (content : string) : loaded :=
  if decide (deep ≤ opening_brackets 0 content)%N then Raised RecursionError
  else @json_load TallyCodec.codec content.



End DeepCodec.



(** A store with a stored date that is no date in any form. *)
Definition misdated : world :=
  World {| transactions := [Transaction (Qc_of_Z 1) "Rent" "yesterday" "Expense"];
           filename := "transactions.json" |} ∅.

(** * Properties *)

(** ** Dates *)

Lemma digit_val_digit n : digit_val (digit n) = Some (n mod 10).
Proof.
  unfold digit.
  assert (Hlt : n mod 10 < 10) by (apply Nat.mod_upper_bound; lia).
  generalize dependent (n mod 10). intros k Hk.
  do 10 (destruct k as [|k]; [reflexivity|]). lia.
Qed.

Lemma MAXYEAR_lt : MAXYEAR < 100 * 100.
Proof. apply Nat.ltb_lt. vm_compute. reflexivity. Qed.

Lemma four_digits y :
  y < 100 * 100 →
  (((0 * 10 + (y / 1000) mod 10) * 10 + (y / 100) mod 10) * 10 + (y / 10) mod 10) * 10
    + y mod 10 = y.
Proof. intros Hy. lia. Qed.

Lemma two_digits m : m < 100 → (0 * 10 + (m / 10) mod 10) * 10 + m mod 10 = m.
Proof. intros Hm. lia. Qed.

Lemma days_in_month_le y m : days_in_month y m ≤ 31.
Proof.
  unfold days_in_month.
  do 12 (destruct m as [|m]; [try destruct (is_leap y); lia|]). lia.
Qed.

(** Reading back what [isoformat] wrote gives the date. *)
Lemma fromisoformat_isoformat d : valid_date d → fromisoformat (isoformat d) = Some d.
Proof.
  intros Hv. pose proof Hv as (Hy & Hm & Hd).
  pose proof (days_in_month_le (year d) (month d)). pose proof MAXYEAR_lt.
  unfold fromisoformat, isoformat. cbn [parse_digits mbind option_bind].
  rewrite !digit_val_digit. cbn [mbind option_bind parse_digits expect].
  rewrite decide_True by reflexivity. cbn [mbind option_bind parse_digits].
  rewrite !digit_val_digit. cbn [mbind option_bind parse_digits expect].
  rewrite decide_True by reflexivity. cbn [mbind option_bind parse_digits].
  rewrite !digit_val_digit. cbn [mbind option_bind parse_digits expect].
  rewrite decide_True by reflexivity.
  rewrite four_digits by lia. rewrite !two_digits by lia.
  unfold date_new. destruct d as [y m dd]. cbn in *.
  rewrite decide_True; [reflexivity|exact Hv].
Qed.

(** ** The codec [TallyCodec] *)

Module TallyCodecFacts.
Import TallyCodec.

Lemma dec_enc_nat n rest : dec_nat (enc_nat n rest) = Some (n, rest).
Proof.
  induction n as [|n IH]; cbn; [reflexivity|]. rewrite IH. reflexivity.
Qed.

Lemma take_chars_app u rest : take_chars (String.length u) (u +:+ rest) = Some (u, rest).
Proof.
  induction u as [|c u IH]; [reflexivity|].
  change (String c u +:+ rest) with (String c (u +:+ rest)).
  cbn. rewrite IH. reflexivity.
Qed.

Lemma dec_enc_str u rest : dec_str (enc_str u rest) = Some (u, rest).
Proof.
  unfold dec_str, enc_str. rewrite dec_enc_nat. exact (take_chars_app u rest).
Qed.

Lemma dec_enc_Z z rest : dec_Z (enc_Z z rest) = Some (z, rest).
Proof.
  unfold dec_Z, enc_Z. rewrite dec_enc_nat. cbn.
  destruct (decide (z < 0)%Z); cbn; do 2 f_equal; lia.
Qed.

Lemma Q2Qc_this (q : Qc) : Q2Qc (this q) = q.
Proof. apply Qc_is_canon. cbn. apply Qred_correct. Qed.

Lemma dec_enc_Qc q rest : dec_Qc (enc_Qc q rest) = Some (q, rest).
Proof.
  unfold dec_Qc, enc_Qc. rewrite dec_enc_Z. cbn. rewrite dec_enc_nat. cbn.
  rewrite Pos2Nat.id. do 2 f_equal.
  rewrite <- (Q2Qc_this q) at 3. f_equal. destruct (this q); reflexivity.
Qed.

Lemma dec_enc_transaction t rest :
  dec_transaction (enc_transaction t rest) = Some (t, rest).
Proof.
  unfold dec_transaction, enc_transaction.
  rewrite dec_enc_Qc. cbn. rewrite !dec_enc_str. cbn. rewrite !dec_enc_str. cbn.
  rewrite !dec_enc_str. cbn. destruct t; reflexivity.
Qed.

Lemma dec_enc_all ts rest : dec_all (length ts) (enc_all ts rest) = Some (ts, rest).
Proof.
  induction ts as [|t ts IH]; [reflexivity|].
  cbn [dec_all enc_all length].
  rewrite dec_enc_transaction. cbn [mbind option_bind]. rewrite IH. reflexivity.
Qed.

Lemma load_dump ts : load (dump ts) = Some ts.
Proof.
  unfold load, dump. rewrite dec_enc_nat. cbn. rewrite dec_enc_all. reflexivity.
Qed.

Lemma load_empty : load EmptyString = None.
Proof. reflexivity. Qed.

(** The reader and the writer of [codec] meet the contract of the
    library. *)
Lemma codec_load_dump ts : @json_load codec (@json_dump codec ts) = Ledger ts.
Proof. cbn [json_load json_dump codec]. rewrite load_dump. reflexivity. Qed.

End TallyCodecFacts.

(** ** The ledger store *)

Section store_facts.
Context `{!Json}.

Lemma save_transactions_run w :
  save_transactions w
  = (Return tt,
     World (self w) (<[filename (self w) := json_dump (transactions (self w))]> (files w))).
Proof. reflexivity. Qed.

Lemma add_transaction_run amount category d ty w :
  add_transaction amount category d ty w
  = (Return tt,
     let ts := transactions (self w) ++ [Transaction amount category (isoformat d) ty] in
     World {| transactions := ts; filename := filename (self w) |}
           (<[filename (self w) := json_dump ts]> (files w))).
Proof. reflexivity. Qed.

Lemma py_del_in_range {A} (i : Z) (l : list A) :
  (0 ≤ i < Z.of_nat (length l))%Z → py_del i l = Some (delete (Z.to_nat i) l).
Proof. intros Hi. unfold py_del. rewrite decide_True by exact Hi. reflexivity. Qed.

Lemma delete_transaction_in_range index w :
  (0 ≤ index < Z.of_nat (length (transactions (self w))))%Z →
  delete_transaction index w
  = (Return tt,
     let ts := delete (Z.to_nat index) (transactions (self w)) in
     World {| transactions := ts; filename := filename (self w) |}
           (<[filename (self w) := json_dump ts]> (files w))).
Proof.
  intros Hi. unfold delete_transaction, mbind, M_bind, gets.
  rewrite decide_True by exact Hi. rewrite py_del_in_range by exact Hi. reflexivity.
Qed.

Lemma delete_transaction_out_of_range index w :
  ¬ (0 ≤ index < Z.of_nat (length (transactions (self w))))%Z →
  delete_transaction index w = (Return tt, w).
Proof.
  intros Hi. unfold delete_transaction, mbind, M_bind, gets.
  rewrite decide_False by exact Hi. reflexivity.
Qed.

(** C8. [add_transaction] appends exactly one transaction, built from its
    four arguments, at the end of the sequence: the sequence grows by
    one, and every transaction that was there keeps its position. *)
Theorem add_transaction_appends amount category d ty w :
  ∃ w', add_transaction amount category d ty w = (Return tt, w')
    ∧ transactions (self w')
      = transactions (self w) ++ [Transaction amount category (isoformat d) ty]
    ∧ length (transactions (self w')) = S (length (transactions (self w)))
    ∧ (∀ i, i < length (transactions (self w)) →
            transactions (self w') !! i = transactions (self w) !! i)
    ∧ transactions (self w') !! length (transactions (self w))
      = Some (Transaction amount category (isoformat d) ty).
Proof.
  eexists. split; [apply add_transaction_run|]. cbn.
  split; [reflexivity|]. split; [rewrite length_app; cbn; lia|].
  split.
  - intros i Hi. apply lookup_app_l. exact Hi.
  - rewrite lookup_app_r by lia. rewrite Nat.sub_diag. reflexivity.
Qed.

(** C2. [delete_transaction] at a position [0 <= i < N] leaves the
    sequence without its element at [i]: what was before [i] followed by
    what was after it, of length [N - 1]; at any other index it changes
    nothing and raises nothing. *)
Theorem delete_transaction_spec index w :
  let ts := transactions (self w) in
  ((0 ≤ index < Z.of_nat (length ts))%Z →
     ∃ w', delete_transaction index w = (Return tt, w')
       ∧ transactions (self w')
         = take (Z.to_nat index) ts ++ drop (S (Z.to_nat index)) ts
       ∧ length (transactions (self w')) = length ts - 1
       ∧ (∀ j, j < Z.to_nat index → transactions (self w') !! j = ts !! j)
       ∧ (∀ j, Z.to_nat index ≤ j → transactions (self w') !! j = ts !! S j))
  ∧ ((index < 0 ∨ Z.of_nat (length ts) ≤ index)%Z →
     delete_transaction index w = (Return tt, w)).
Proof.
  intros ts. split.
  - intros Hi. eexists. split; [apply delete_transaction_in_range; exact Hi|].
    cbn. fold ts. split; [apply delete_take_drop|]. split.
    + rewrite length_delete; [lia|]. apply lookup_lt_is_Some. lia.
    + split; intros j Hj.
      * apply list_lookup_delete_lt. exact Hj.
      * apply list_lookup_delete_ge. exact Hj.
  - intros Hi. apply delete_transaction_out_of_range. fold ts. lia.
Qed.

(** What loading does, by the file of the store. *)
Lemma load_transactions_run w :
  load_transactions w
  = match files w !! filename (self w) with
    | None => (Return tt, with_transactions [] w)
    | Some content =>
        match json_load content with
        | Ledger ts => (Return tt, with_transactions ts w)
        | OtherValue => (Escapes, w)
        | Raised JSONDecodeError => (Return tt, with_transactions [] w)
        | Raised e => (Raise e, w)
        end
    end.
Proof.
  unfold load_transactions, mbind, M_bind, gets, read_file. cbn.
  destruct (files w !! filename (self w)) as [content|]; [|reflexivity].
  destruct (json_load content) as [ts| |[]]; reflexivity.
Qed.


Lemma init_absent name fs :
  fs !! name = None →
  __init__ name fs = (Return tt, World {| transactions := []; filename := name |} fs).
Proof. intros Habsent. unfold __init__. rewrite load_transactions_run. cbn. rewrite Habsent. reflexivity. Qed.

Lemma init_ledger name fs content ts :
  fs !! name = Some content → json_load content = Ledger ts →
  __init__ name fs = (Return tt, World {| transactions := ts; filename := name |} fs).
Proof.
  intros Hfile Hload. unfold __init__. rewrite load_transactions_run. cbn.
  rewrite Hfile, Hload. reflexivity.
Qed.

(** A store that opens holds the name and sees the files that it was
    given. *)
Lemma init_returns name fs w0 :
  __init__ name fs = (Return tt, w0) → files w0 = fs ∧ filename (self w0) = name.
Proof.
  unfold __init__. rewrite load_transactions_run. cbn.
  destruct (fs !! name) as [content|].
  - destruct (json_load content) as [ts| |[]]; intros [= <-]; split; reflexivity.
  - intros [= <-]. split; reflexivity.
Qed.

Lemma add_all_run es w :
  ∃ w', add_all es w = (Return tt, w')
    ∧ filename (self w') = filename (self w)
    ∧ transactions (self w') = transactions (self w) ++ (stored <$> es)
    ∧ (es = [] → w' = w)
    ∧ (es ≠ [] →
       files w' !! filename (self w) = Some (json_dump (transactions (self w')))).
Proof.
  revert w. induction es as [|e es IH]; intros w.
  - exists w. cbn. rewrite app_nil_r. repeat split; congruence.
  - destruct (IH (add_transaction (e_amount e) (e_category e) (e_date e) (e_type e) w).2)
      as (w' & Hrun & Hname & Hts & Hnil & Hcons).
    exists w'. split.
    { cbn [add_all]. unfold mbind, M_bind at 1. rewrite add_transaction_run.
      rewrite add_transaction_run in Hrun. exact Hrun. }
    rewrite add_transaction_run in Hname, Hts, Hnil, Hcons. cbn in Hname, Hts, Hnil, Hcons.
    split; [exact Hname|]. split.
    { rewrite Hts, <- app_assoc. reflexivity. }
    split; [discriminate|]. intros _.
    destruct es as [|e' es].
    + rewrite Hnil by reflexivity. cbn. rewrite lookup_insert_eq. reflexivity.
    + apply Hcons. discriminate.
Qed.

Hypothesis json_load_dump : ∀ ts, json_load (json_dump ts) = Ledger ts.

(** C6. A store is opened on a file, any number of transactions are
    added (each addition saves), and the file is loaded again by a new
    store: the new store holds what the first one held when it was
    opened followed by the added transactions, in the order of their
    addition; on a file that did not exist, where the first store does
    open, exactly the added ones. *)
Theorem save_load_round_trip name fs es :
  (fs !! name = None → ∃ w0, __init__ name fs = (Return tt, w0))
  ∧ ∀ w0,
      __init__ name fs = (Return tt, w0) →
      ∃ w1 w2,
        add_all es w0 = (Return tt, w1)
        ∧ __init__ name (files w1) = (Return tt, w2)
        ∧ transactions (self w1) = transactions (self w0) ++ (stored <$> es)
        ∧ transactions (self w2) = transactions (self w1)
        ∧ (fs !! name = None → transactions (self w2) = stored <$> es).
Proof.
  split.
  { intros Habsent. eexists. apply init_absent. exact Habsent. }
  intros w0 Hinit.
  destruct (init_returns name fs w0 Hinit) as [Hfiles Hname0].
  destruct (add_all_run es w0) as (w1 & Hrun & Hname & Hts & Hnil & Hcons).
  assert (Hreload : ∃ w2, __init__ name (files w1) = (Return tt, w2)
                          ∧ transactions (self w2) = transactions (self w1)).
  { destruct es as [|e es].
    - rewrite (Hnil eq_refl), Hfiles. exists w0. split; [exact Hinit|reflexivity].
    - eexists. split.
      + eapply init_ledger; [|apply json_load_dump].
        rewrite <- Hname0. apply Hcons. discriminate.
      + reflexivity. }
  destruct Hreload as (w2 & Hinit2 & Hts2).
  exists w1, w2. split; [exact Hrun|]. split; [exact Hinit2|].
  split; [exact Hts|]. split; [exact Hts2|].
  intros Habsent. rewrite Hts2, Hts.
  rewrite (init_absent name fs Habsent) in Hinit. injection Hinit as <-. reflexivity.
Qed.

(** A deletion is saved: a new store opened on the files that it leaves
    holds the sequence without the deleted element. *)
Lemma delete_transaction_persists index w :
  (0 ≤ index < Z.of_nat (length (transactions (self w))))%Z →
  ∃ w' w2,
    delete_transaction index w = (Return tt, w')
    ∧ __init__ (filename (self w)) (files w') = (Return tt, w2)
    ∧ transactions (self w2) = delete (Z.to_nat index) (transactions (self w)).
Proof.
  intros Hi. eexists. eexists.
  split; [apply delete_transaction_in_range; exact Hi|].
  split.
  - eapply init_ledger; [|apply json_load_dump].
    cbn [self files transactions filename]. apply lookup_insert_eq.
  - reflexivity.
Qed.

End store_facts.

(** ** The reader with the limit on nesting *)

Module DeepCodecFacts.
Import DeepCodec.




Lemma opening_brackets_enc_nat n rest :
  opening_brackets 0 (TallyCodec.enc_nat n rest) = 0%N.
Proof. destruct n; reflexivity. Qed.

(** It meets the contract of the library all the same. *)
Lemma read_dump ts : read (TallyCodec.dump ts) = Ledger ts.
Proof.
  unfold read, TallyCodec.dump. rewrite opening_brackets_enc_nat.
  rewrite decide_False by (unfold deep; lia).
  apply TallyCodecFacts.codec_load_dump.
Qed.

End DeepCodecFacts.



(** ** Filtering *)

Lemma filter_all {A} (P : A → Prop) `{!∀ x, Decision (P x)} (l : list A) :
  (∀ x, P x) → filter P l = l.
Proof.
  intros HP. induction l as [|x l IH]; [reflexivity|].
  rewrite filter_cons_True by apply HP. rewrite IH. reflexivity.
Qed.

Lemma category_stage (category : string) (l : list transaction) :
  (if decide (category = "Other") then
     filter (λ t, t_category t ∉ predefined_categories) l
   else if decide (category ≠ EmptyString ∧ category ≠ "All") then
     filter (λ t, t_category t = category) l
   else l)
  = filter (category_pred category) l.
Proof.
  destruct (decide (category = "Other")) as [->|Hother].
  - apply list_filter_iff. intros t. reflexivity.
  - destruct (decide (category ≠ EmptyString ∧ category ≠ "All")) as [[Hne Hna]|Hall].
    + apply list_filter_iff. intros t. unfold category_pred.
      rewrite decide_False by (intros [?|?]; congruence).
      rewrite decide_False by exact Hother. reflexivity.
    + symmetry. apply filter_all. intros t. unfold category_pred.
      rewrite decide_True; [exact I|].
      destruct (decide (category = EmptyString)) as [->|?]; [right; reflexivity|].
      destruct (decide (category = "All")) as [->|?]; [left; reflexivity|].
      exfalso. apply Hall. split; assumption.
Qed.

Lemma type_stage (transaction_type : string) (l : list transaction) :
  (if decide (transaction_type ≠ EmptyString ∧ transaction_type ≠ "All") then
     filter (λ t, t_type t = transaction_type) l
   else l)
  = filter (type_pred transaction_type) l.
Proof.
  destruct (decide (transaction_type ≠ EmptyString ∧ transaction_type ≠ "All"))
    as [[Hne Hna]|Hall].
  - apply list_filter_iff. intros t. unfold type_pred.
    rewrite decide_False by (intros [?|?]; congruence). reflexivity.
  - symmetry. apply filter_all. intros t. unfold type_pred.
    rewrite decide_True; [exact I|].
    destruct (decide (transaction_type = EmptyString)) as [->|?]; [right; reflexivity|].
    destruct (decide (transaction_type = "All")) as [->|?]; [left; reflexivity|].
    exfalso. apply Hall. split; assumption.
Qed.

(** What the comprehension over the dates computes: the transactions whose
    date satisfies [P], unless one date cannot be read. *)
Lemma filter_by_date_cases (P : date → Prop) `{!∀ d, Decision (P d)} l :
  match filter_by_date P l with
  | Some kept =>
      kept = filter (date_holds P) l ∧ dates_readable l
  | None => ∃ t, t ∈ l ∧ date_of t = None
  end.
Proof.
  induction l as [|t l IH]; cbn [filter_by_date].
  - split; [reflexivity|constructor].
  - fold (date_of t). destruct (date_of t) as [d|] eqn:Hd; cbn [mbind option_bind].
    + destruct (filter_by_date P l) as [kept|]; cbn [mbind option_bind].
      * destruct IH as [-> Hread]. split.
        -- destruct (decide (P d)) as [HP|HP].
           ++ rewrite filter_cons_True; [reflexivity|].
              unfold date_holds. rewrite Hd. exact HP.
           ++ rewrite filter_cons_False; [reflexivity|].
              unfold date_holds. rewrite Hd. exact HP.
        -- constructor; [rewrite Hd; eexists; reflexivity|exact Hread].
      * destruct IH as (t' & Hin & Hnone). exists t'. split; [right; exact Hin|exact Hnone].
    + exists t. split; [left|exact Hd].
Qed.

Lemma dates_readable_filter (P : transaction → Prop) `{!∀ t, Decision (P t)} l :
  dates_readable l → dates_readable (filter P l).
Proof.
  unfold dates_readable. rewrite !Forall_forall. intros Hl t Ht.
  apply Hl. apply list_elem_of_filter in Ht. apply Ht.
Qed.

Lemma filter_by_date_readable (P : date → Prop) `{!∀ d, Decision (P d)} l :
  dates_readable l →
  filter_by_date P l = Some (filter (date_holds P) l).
Proof.
  intros Hread. pose proof (filter_by_date_cases P l) as Hc.
  destruct (filter_by_date P l) as [kept|].
  - destruct Hc as [-> _]. reflexivity.
  - destruct Hc as (t & Hin & Hnone). unfold dates_readable in Hread.
    rewrite Forall_forall in Hread. apply Hread in Hin. rewrite Hnone in Hin.
    destruct Hin as [? ?]. discriminate.
Qed.

Lemma selected_filter c ty sd ed (l : list transaction) :
  filter (end_pred ed) (filter (start_pred sd) (filter (type_pred ty) (filter (category_pred c) l)))
  = filter (selected c ty sd ed) l.
Proof.
  rewrite !list_filter_filter. apply list_filter_iff. intros t.
  unfold selected. tauto.
Qed.

(** The method either returns the selection, or raises [ValueError] at a
    date that cannot be read; it leaves the object and the files as they
    were. *)
Lemma filter_transactions_cases c ty sd ed w :
  (filter_transactions c ty sd ed w
   = (Return (filter (selected c ty sd ed) (transactions (self w))), w))
  ∨ (filter_transactions c ty sd ed w = (Raise ValueError, w)
     ∧ ¬ dates_readable (transactions (self w))).
Proof.
  unfold filter_transactions, mbind, M_bind, gets.
  rewrite category_stage, type_stage.
  rewrite <- selected_filter.
  set (l2 := filter (type_pred ty) (filter (category_pred c) (transactions (self w)))).
  assert (Hbad : ∀ l : list transaction,
             (∀ t, t ∈ l → t ∈ transactions (self w)) →
             (∃ t, t ∈ l ∧ date_of t = None) →
             ¬ dates_readable (transactions (self w))).
  { intros l Hsub (t & Hin & Hnone) Hread. unfold dates_readable in Hread.
    rewrite Forall_forall in Hread. apply Hsub, Hread in Hin.
    rewrite Hnone in Hin. destruct Hin as [? ?]. discriminate. }
  assert (Hl2 : ∀ t, t ∈ l2 → t ∈ transactions (self w)).
  { intros t Ht. unfold l2 in Ht. rewrite !list_elem_of_filter in Ht. tauto. }
  destruct sd as [s|].
  - pose proof (filter_by_date_cases (λ d, date_le s d) l2) as Hs.
    destruct (filter_by_date (λ d, date_le s d) l2) as [l3|]; cbn.
    + destruct Hs as [Hl3 _].
      change (date_holds (λ d, date_le s d)) with (start_pred (Some s)) in Hl3.
      destruct ed as [e|].
      * pose proof (filter_by_date_cases (λ d, date_le d e) l3) as He.
        destruct (filter_by_date (λ d, date_le d e) l3) as [l4|]; cbn.
        -- destruct He as [-> _]. subst l3. left. reflexivity.
        -- right. split; [reflexivity|]. apply (Hbad l3); [|exact He].
           intros t Ht. subst l3. apply list_elem_of_filter in Ht. apply Hl2, Ht.
      * left. subst l3. rewrite (filter_all (end_pred None)) by (intros t; exact I).
        reflexivity.
    + right. split; [reflexivity|]. apply (Hbad l2); [exact Hl2|exact Hs].
  - cbn. rewrite (filter_all (start_pred None)) by (intros t; exact I).
    destruct ed as [e|].
    + pose proof (filter_by_date_cases (λ d, date_le d e) l2) as He.
      destruct (filter_by_date (λ d, date_le d e) l2) as [l4|]; cbn.
      * destruct He as [-> _]. left. reflexivity.
      * right. split; [reflexivity|]. apply (Hbad l2); [exact Hl2|exact He].
    + left. rewrite (filter_all (end_pred None)) by (intros t; exact I). reflexivity.
Qed.

Lemma filter_transactions_readable c ty sd ed w :
  dates_readable (transactions (self w)) →
  filter_transactions c ty sd ed w
  = (Return (filter (selected c ty sd ed) (transactions (self w))), w).
Proof.
  intros Hread. destruct (filter_transactions_cases c ty sd ed w) as [Hret|[_ Hbad]].
  - exact Hret.
  - contradiction.
Qed.

Lemma unreadable_not_readable (l : list transaction) :
  (∃ t, t ∈ l ∧ date_of t = None) → ¬ dates_readable l.
Proof.
  intros (t & Hin & Hnone) Hread. unfold dates_readable in Hread.
  rewrite Forall_forall in Hread. apply Hread in Hin. rewrite Hnone in Hin.
  destruct Hin as [? ?]. discriminate.
Qed.

(** When the method raises: a bound on the date is given, and one of the
    transactions that pass the category and the type conditions has a
    stored date that the reader does not read. *)
Lemma filter_transactions_raises c ty sd ed w :
  filter_transactions c ty sd ed w = (Raise ValueError, w) →
  (is_Some sd ∨ is_Some ed)
  ∧ ¬ dates_readable
        (filter (type_pred ty) (filter (category_pred c) (transactions (self w)))).
Proof.
  unfold filter_transactions, mbind, M_bind, gets.
  rewrite category_stage, type_stage.
  set (l2 := filter (type_pred ty) (filter (category_pred c) (transactions (self w)))).
  destruct sd as [s|].
  - pose proof (filter_by_date_cases (λ d, date_le s d) l2) as Hs.
    destruct (filter_by_date (λ d, date_le s d) l2) as [l3|]; cbn.
    + destruct Hs as [-> Hread]. destruct ed as [e|].
      * rewrite filter_by_date_readable by (apply dates_readable_filter; exact Hread).
        cbn. discriminate.
      * cbn. discriminate.
    + intros _. split.
      * left. eexists. reflexivity.
      * apply unreadable_not_readable. exact Hs.
  - cbn. destruct ed as [e|].
    + pose proof (filter_by_date_cases (λ d, date_le d e) l2) as He.
      destruct (filter_by_date (λ d, date_le d e) l2) as [l4|]; cbn.
      * discriminate.
      * intros _. split.
        -- right. eexists. reflexivity.
        -- apply unreadable_not_readable. exact He.
    + cbn. discriminate.
Qed.

(** C1. On a list of transactions whose dates are calendar dates, the
    filter returns the transactions that satisfy the four conditions
    together, and only them: the category condition, the type condition,
    and the two inclusive bounds on the date. *)
Theorem filter_transactions_conjunctive c ty sd ed w :
  dates_readable (transactions (self w)) →
  ∃ out, filter_transactions c ty sd ed w = (Return out, w)
    ∧ out = filter (selected c ty sd ed) (transactions (self w))
    ∧ ∀ t, t ∈ out ↔
           t ∈ transactions (self w)
           ∧ category_pred c t ∧ type_pred ty t ∧ start_pred sd t ∧ end_pred ed t.
Proof.
  intros Hread. eexists. split; [apply filter_transactions_readable; exact Hread|].
  split; [reflexivity|]. intros t. rewrite list_elem_of_filter. unfold selected. tauto.
Qed.

(** C5. With "All", "All" and no bound the filter returns the list of
    the store as it is; and whatever its arguments, and whether it returns
    or raises, the filter leaves the store (and the files) as they were. *)
Theorem filter_transactions_identity_and_frame w :
  filter_transactions "All" "All" None None w = (Return (transactions (self w)), w)
  ∧ ∀ c ty sd ed, (filter_transactions c ty sd ed w).2 = w.
Proof.
  split; [reflexivity|]. intros c ty sd ed.
  destruct (filter_transactions_cases c ty sd ed w) as [->|[-> _]]; reflexivity.
Qed.

Lemma sublist_count_occ (l1 l2 : list transaction) t :
  l1 `sublist_of` l2 →
  count_occ transaction_eq_dec l1 t ≤ count_occ transaction_eq_dec l2 t.
Proof.
  induction 1 as [|x l1 l2 _ IH|x l1 l2 _ IH]; cbn.
  - lia.
  - destruct (transaction_eq_dec x t); lia.
  - destruct (transaction_eq_dec x t); lia.
Qed.

(** C9. What the filter returns is a subsequence of the list of the store:
    its elements are elements of the list, none occurs more often than in
    the list, and they come in the order of the list. It does return when
    the dates of the list are calendar dates. *)
Theorem filter_transactions_subsequence c ty sd ed w :
  (∀ out w', filter_transactions c ty sd ed w = (Return out, w') →
     out `sublist_of` transactions (self w)
     ∧ (∀ t, t ∈ out → t ∈ transactions (self w))
     ∧ (∀ t, count_occ transaction_eq_dec out t
             ≤ count_occ transaction_eq_dec (transactions (self w)) t))
  ∧ (dates_readable (transactions (self w)) →
     ∃ out, filter_transactions c ty sd ed w = (Return out, w)).
Proof.
  split.
  - intros out w' Hrun.
    assert (Hsub : out `sublist_of` transactions (self w)).
    { destruct (filter_transactions_cases c ty sd ed w) as [Hret|[Hraise _]].
      - rewrite Hret in Hrun. injection Hrun as <- _. apply sublist_filter.
      - rewrite Hraise in Hrun. discriminate. }
    split; [exact Hsub|]. split.
    + intros t Ht. eapply elem_of_sublist; eassumption.
    + intros t. apply sublist_count_occ. exact Hsub.
  - intros Hread. eexists. apply filter_transactions_readable. exact Hread.
Qed.

(** ** Sums *)

Lemma foldl_Qcplus (a : Qc) (l : list Qc) : foldl Qcplus a l = (a + foldl Qcplus 0 l)%Qc.
Proof.
  revert a. induction l as [|x l IH]; intros a; cbn.
  - ring.
  - rewrite (IH (a + x)%Qc), (IH (0 + x)%Qc). ring.
Qed.

Lemma py_sum_nil : py_sum [] = 0%Qc.
Proof. reflexivity. Qed.

Lemma py_sum_cons x l : py_sum (x :: l) = (x + py_sum l)%Qc.
Proof. unfold py_sum. cbn. rewrite foldl_Qcplus. ring. Qed.

Lemma py_sum_app l1 l2 : py_sum (l1 ++ l2) = (py_sum l1 + py_sum l2)%Qc.
Proof.
  induction l1 as [|x l1 IH]; cbn [app].
  - rewrite py_sum_nil. ring.
  - rewrite !py_sum_cons, IH. ring.
Qed.

(** The sum that the code computes for one type is the sum of the amounts of
    the transactions of that type. *)
Lemma py_sum_amounts ty ts :
  py_sum (t_amount <$> filter (λ t, t_type t = ty) ts) = total_of ty ts.
Proof.
  induction ts as [|t ts IH]; [reflexivity|].
  rewrite filter_cons. cbn [total_of].
  destruct (decide (t_type t = ty)); [|exact IH].
  rewrite fmap_cons, py_sum_cons, IH. reflexivity.
Qed.

Lemma calculate_totals_spec ts :
  calculate_totals ts = (total_of "Income" ts, total_of "Expense" ts).
Proof. unfold calculate_totals. rewrite !py_sum_amounts. reflexivity. Qed.

(** C3. The balance is the sum of the amounts of the Income transactions of
    the whole store minus the sum of the amounts of its Expense
    transactions; it is 0 for the empty store. Reading the balance changes
    nothing. *)
Theorem view_balance_spec w :
  view_balance w
  = (Return (total_of "Income" (transactions (self w))
             - total_of "Expense" (transactions (self w)))%Qc, w)
  ∧ (transactions (self w) = [] → view_balance w = (Return 0%Qc, w)).
Proof.
  assert (Hrun : view_balance w
    = (Return (total_of "Income" (transactions (self w))
               - total_of "Expense" (transactions (self w)))%Qc, w)).
  { unfold view_balance, mbind, M_bind, gets, mret, M_ret.
    rewrite !py_sum_amounts. reflexivity. }
  split; [exact Hrun|].
  intros Hnil. rewrite Hrun, Hnil. cbn [total_of].
  replace (0 - 0)%Qc with 0%Qc by ring. reflexivity.
Qed.

(** ** Dictionaries *)

Lemma dict_iadd_nil k v : dict_iadd k v [] = [(k, (0 + v)%Qc)].
Proof. reflexivity. Qed.

Lemma dict_iadd_cons_eq k v v' d : dict_iadd k v ((k, v') :: d) = (k, (v' + v)%Qc) :: d.
Proof. unfold dict_iadd. cbn. rewrite !decide_True by reflexivity. reflexivity. Qed.

Lemma dict_iadd_cons_ne k k' v v' d :
  k' ≠ k → dict_iadd k v ((k', v') :: d) = (k', v') :: dict_iadd k v d.
Proof. intros Hne. unfold dict_iadd. cbn. rewrite !decide_False by exact Hne. reflexivity. Qed.

Lemma keys_dict_iadd k v d :
  keys (dict_iadd k v d) = if decide (k ∈ keys d) then keys d else keys d ++ [k].
Proof.
  induction d as [|[k' v'] d IH].
  - rewrite dict_iadd_nil. rewrite decide_False by apply not_elem_of_nil. reflexivity.
  - destruct (decide (k' = k)) as [->|Hne].
    + rewrite dict_iadd_cons_eq. rewrite decide_True by (cbn; left). reflexivity.
    + rewrite dict_iadd_cons_ne by exact Hne. unfold keys in *. cbn [fmap list_fmap fst].
      rewrite IH. destruct (decide (k ∈ d.*1)) as [Hin|Hnin].
      * rewrite decide_True by (right; exact Hin). reflexivity.
      * rewrite decide_False; [reflexivity|].
        intros Hin. apply elem_of_cons in Hin as [Heq|Hin]; [congruence|contradiction].
Qed.

Lemma py_sum_values_dict_iadd k v d :
  py_sum (values (dict_iadd k v d)) = (py_sum (values d) + v)%Qc.
Proof.
  induction d as [|[k' v'] d IH].
  - rewrite dict_iadd_nil. unfold values. cbn [fmap list_fmap snd].
    rewrite py_sum_cons, py_sum_nil. ring.
  - destruct (decide (k' = k)) as [->|Hne].
    + rewrite dict_iadd_cons_eq. unfold values. cbn [fmap list_fmap snd].
      rewrite !py_sum_cons. ring.
    + rewrite dict_iadd_cons_ne by exact Hne. unfold values in *. cbn [fmap list_fmap snd].
      rewrite !py_sum_cons, IH. ring.
Qed.

Lemma dict_get_dict_iadd c k v d :
  dict_get c (dict_iadd k v d)
  = if decide (k = c) then (dict_get c d + v)%Qc else dict_get c d.
Proof.
  induction d as [|[k' v'] d IH].
  - rewrite dict_iadd_nil. cbn. destruct (decide (k = c)); reflexivity.
  - destruct (decide (k' = k)) as [->|Hne].
    + rewrite dict_iadd_cons_eq. cbn. destruct (decide (k = c)); reflexivity.
    + rewrite dict_iadd_cons_ne by exact Hne. cbn. rewrite IH.
      destruct (decide (k' = c)) as [->|Hne'].
      * rewrite decide_False by congruence. reflexivity.
      * reflexivity.
Qed.

Lemma dict_get_elem_of c p d : NoDup (keys d) → (c, p) ∈ d → dict_get c d = p.
Proof.
  induction d as [|[k v] d IH]; intros Hnd Hin.
  - apply elem_of_nil in Hin. contradiction.
  - unfold keys in Hnd. cbn in Hnd. apply NoDup_cons in Hnd as [Hk Hnd].
    apply elem_of_cons in Hin as [Heq|Hin].
    + injection Heq as -> ->. cbn. rewrite decide_True by reflexivity. reflexivity.
    + cbn. rewrite decide_False; [apply IH; assumption|].
      intros ->. apply Hk. apply list_elem_of_fmap. exists (c, p). split; [reflexivity|exact Hin].
Qed.

Lemma dict_set_fresh k v d : k ∉ keys d → dict_set k v d = d ++ [(k, v)].
Proof.
  induction d as [|[k' v'] d IH]; intros Hk; [reflexivity|].
  unfold keys in Hk. cbn in Hk. apply not_elem_of_cons in Hk as [Hne Hk].
  cbn. rewrite decide_False by congruence. rewrite IH by exact Hk. reflexivity.
Qed.

(** A comprehension over the items of a dictionary keeps the keys, in their
    order, and maps the values. *)
Lemma dict_comprehension_fmap f d :
  NoDup (keys d) → dict_comprehension f d = (λ kv, (kv.1, f kv.2)) <$> d.
Proof.
  intros Hnd. unfold dict_comprehension.
  enough (Hgen : ∀ acc, NoDup (keys acc ++ keys d) →
            foldl (λ acc kv, dict_set kv.1 (f kv.2) acc) acc d
            = acc ++ ((λ kv, (kv.1, f kv.2)) <$> d)).
  { apply (Hgen []). exact Hnd. }
  clear Hnd. induction d as [|[k v] d IH]; intros acc Hnd.
  - cbn. rewrite app_nil_r. reflexivity.
  - cbn [foldl fmap list_fmap fst snd].
    unfold keys in Hnd. cbn [fmap list_fmap fst] in Hnd.
    rewrite dict_set_fresh.
    + rewrite IH.
      * rewrite <- app_assoc. reflexivity.
      * unfold keys. rewrite fmap_app. cbn. rewrite <- app_assoc. exact Hnd.
    + apply NoDup_app in Hnd as (_ & Hdisj & _). intros Hin.
      apply (Hdisj k Hin). left.
Qed.

(** ** The sums by category *)

Lemma sum_by_category_cons d t ts :
  sum_by_category d (t :: ts)
  = sum_by_category (dict_iadd (t_category t) (t_amount t) d) ts.
Proof. reflexivity. Qed.

Lemma keys_sum_by_category d ts c :
  c ∈ keys (sum_by_category d ts) ↔ c ∈ keys d ∨ c ∈ t_category <$> ts.
Proof.
  revert d. induction ts as [|t ts IH]; intros d.
  - cbn. rewrite elem_of_nil. tauto.
  - rewrite sum_by_category_cons, IH, keys_dict_iadd, fmap_cons, elem_of_cons.
    destruct (decide (t_category t ∈ keys d)) as [Hin|Hnin].
    + split; [tauto|]. intros [?|[->|?]]; tauto.
    + rewrite elem_of_app, list_elem_of_singleton. tauto.
Qed.

Lemma NoDup_keys_sum_by_category d ts :
  NoDup (keys d) → NoDup (keys (sum_by_category d ts)).
Proof.
  revert d. induction ts as [|t ts IH]; intros d Hnd; [exact Hnd|].
  rewrite sum_by_category_cons. apply IH. rewrite keys_dict_iadd.
  destruct (decide (t_category t ∈ keys d)) as [Hin|Hnin]; [exact Hnd|].
  apply NoDup_app. split; [exact Hnd|]. split.
  - intros x Hx Hx'. apply list_elem_of_singleton in Hx'. subst x. contradiction.
  - apply NoDup_singleton.
Qed.

Lemma py_sum_values_sum_by_category d ts :
  py_sum (values (sum_by_category d ts))
  = (py_sum (values d) + py_sum (t_amount <$> ts))%Qc.
Proof.
  revert d. induction ts as [|t ts IH]; intros d.
  - cbn [sum_by_category foldl fmap list_fmap]. rewrite py_sum_nil. ring.
  - rewrite sum_by_category_cons, IH, py_sum_values_dict_iadd, fmap_cons, py_sum_cons. ring.
Qed.

Lemma dict_get_sum_by_category c d ts :
  dict_get c (sum_by_category d ts)
  = (dict_get c d + py_sum (t_amount <$> filter (λ t, t_category t = c) ts))%Qc.
Proof.
  revert d. induction ts as [|t ts IH]; intros d.
  - cbn [sum_by_category foldl]. rewrite filter_nil, fmap_nil, py_sum_nil. ring.
  - rewrite sum_by_category_cons, IH, dict_get_dict_iadd, filter_cons.
    destruct (decide (t_category t = c)) as [Heq|Hne].
    + rewrite fmap_cons, py_sum_cons. ring.
    + reflexivity.
Qed.

(** The loop fills each of the two dictionaries from the transactions of
    its type. *)
Lemma foldl_breakdown_step income_totals expense_totals ts :
  foldl breakdown_step (income_totals, expense_totals) ts
  = (sum_by_category income_totals (filter (λ t, t_type t = "Income") ts),
     sum_by_category expense_totals (filter (λ t, t_type t = "Expense") ts)).
Proof.
  revert income_totals expense_totals.
  induction ts as [|t ts IH]; intros income_totals expense_totals; [reflexivity|].
  cbn [foldl]. unfold breakdown_step at 2. rewrite !filter_cons.
  destruct (decide (t_type t = "Income")) as [Hi|Hi].
  - rewrite decide_False by (rewrite Hi; discriminate). rewrite IH. reflexivity.
  - destruct (decide (t_type t = "Expense")); rewrite IH; reflexivity.
Qed.

(** ** The breakdown by category *)

Lemma py_sum_percentage total l :
  (0 < total)%Qc →
  py_sum (percentage total <$> l) = (py_sum l / total * Qc_of_Z 100)%Qc.
Proof.
  intros Hpos. induction l as [|x l IH].
  - cbn [fmap list_fmap]. rewrite py_sum_nil. unfold Qcdiv. ring.
  - rewrite fmap_cons, !py_sum_cons, IH. unfold percentage.
    rewrite decide_True by exact Hpos. unfold Qcdiv. ring.
Qed.

Lemma percentage_not_positive total amount : ¬ (0 < total)%Qc → percentage total amount = 0%Qc.
Proof. intros Hneg. unfold percentage. rewrite decide_False by exact Hneg. reflexivity. Qed.

Lemma calculate_category_breakdown_eq ts :
  calculate_category_breakdown ts
  = ((λ kv, (kv.1, percentage (total_of "Income" ts) kv.2))
       <$> sum_by_category [] (filter (λ t, t_type t = "Income") ts),
     (λ kv, (kv.1, percentage (total_of "Expense" ts) kv.2))
       <$> sum_by_category [] (filter (λ t, t_type t = "Expense") ts)).
Proof.
  unfold calculate_category_breakdown. rewrite foldl_breakdown_step.
  rewrite !py_sum_values_sum_by_category, !py_sum_amounts.
  change (py_sum (values [])) with 0%Qc.
  replace (0 + total_of "Income" ts)%Qc with (total_of "Income" ts) by ring.
  replace (0 + total_of "Expense" ts)%Qc with (total_of "Expense" ts) by ring.
  rewrite !dict_comprehension_fmap
    by (apply NoDup_keys_sum_by_category; apply NoDup_nil_2).
  reflexivity.
Qed.

Lemma keys_percentages total (d : dict) :
  keys ((λ kv, (kv.1, percentage total kv.2)) <$> d) = keys d.
Proof. unfold keys. rewrite <- list_fmap_compose. reflexivity. Qed.

Lemma values_percentages total (d : dict) :
  values ((λ kv, (kv.1, percentage total kv.2)) <$> d) = percentage total <$> values d.
Proof. unfold values. rewrite <- !list_fmap_compose. reflexivity. Qed.

Lemma total_in_sum ty c ts :
  py_sum (t_amount <$> filter (λ t, t_category t = c) (filter (λ t, t_type t = ty) ts))
  = total_in ty c ts.
Proof.
  unfold total_in. rewrite <- py_sum_amounts. do 2 f_equal.
  rewrite !list_filter_filter. apply list_filter_iff. intros t. tauto.
Qed.

(** The percentages of one type: the mapping goes from the categories of the
    type to the share of each in the total of the type. *)
Lemma percentages_of_type ty ts :
  let percentages :=
    (λ kv, (kv.1, percentage (total_of ty ts) kv.2))
      <$> sum_by_category [] (filter (λ t, t_type t = ty) ts) in
  sums_to_100_if_positive (total_of ty ts) percentages
  ∧ (∀ c p, (c, p) ∈ percentages → p = percentage (total_of ty ts) (total_in ty c ts))
  ∧ (∀ c, c ∈ keys percentages ↔ c ∈ categories_of ty ts)
  ∧ NoDup (keys percentages).
Proof.
  intros percentages. subst percentages.
  set (totals := sum_by_category [] (filter (λ t, t_type t = ty) ts)).
  assert (Hnd : NoDup (keys totals)).
  { apply NoDup_keys_sum_by_category. apply NoDup_nil_2. }
  assert (Hsum : py_sum (values totals) = total_of ty ts).
  { unfold totals. rewrite py_sum_values_sum_by_category, py_sum_amounts.
    change (py_sum (values [])) with 0%Qc. ring. }
  split; [split|split; [|split]].
  - intros Hpos. rewrite values_percentages, py_sum_percentage by exact Hpos.
    rewrite Hsum. field. intros Hzero. rewrite Hzero in Hpos.
    exact (Qclt_not_eq _ _ Hpos eq_refl).
  - intros Hneg c p Hin. apply list_elem_of_fmap in Hin as ([k v] & Heq & _).
    injection Heq as _ ->. apply percentage_not_positive. exact Hneg.
  - intros c p Hin. apply list_elem_of_fmap in Hin as ([k v] & Heq & Hin).
    cbn in Heq. injection Heq as -> ->. f_equal.
    rewrite <- (dict_get_elem_of k v totals Hnd Hin). unfold totals.
    rewrite dict_get_sum_by_category, total_in_sum. cbn [dict_get]. ring.
  - intros c. rewrite keys_percentages. unfold totals.
    rewrite keys_sum_by_category. unfold categories_of, keys. cbn [fmap list_fmap].
    rewrite elem_of_nil. tauto.
  - rewrite keys_percentages. exact Hnd.
Qed.

(** C4. For each of the two types, the mapping gives to each category of
    the type its share of the total of the type, in percent; the
    percentages sum to 100 when the total of the type is positive, and all
    are 0 when it is not (zero or negative). *)
Theorem breakdown_percentages ts :
  sums_to_100_if_positive (total_of "Income" ts) (calculate_category_breakdown ts).1
  ∧ sums_to_100_if_positive (total_of "Expense" ts) (calculate_category_breakdown ts).2
  ∧ (∀ c p, (c, p) ∈ (calculate_category_breakdown ts).1 →
            p = percentage (total_of "Income" ts) (total_in "Income" c ts))
  ∧ (∀ c p, (c, p) ∈ (calculate_category_breakdown ts).2 →
            p = percentage (total_of "Expense" ts) (total_in "Expense" c ts)).
Proof.
  rewrite calculate_category_breakdown_eq. cbn [fst snd].
  destruct (percentages_of_type "Income" ts) as (Hi & Hgi & _).
  destruct (percentages_of_type "Expense" ts) as (He & Hge & _).
  repeat split; try apply Hi; try apply He; assumption.
Qed.

(** The statement of the specification fails on a negative total: the only
    percentage is 0, and the total is not zero. *)
Lemma breakdown_as_stated_fails : ¬ breakdown_as_stated [refund].
Proof.
  intros [_ [Hsum _]].
  assert (Hne : total_of "Expense" [refund] ≠ 0%Qc).
  { intros Heq. apply (f_equal (λ q, Qnum (this q))) in Heq. vm_compute in Heq. discriminate. }
  apply Hsum in Hne. apply (f_equal (λ q, Qnum (this q))) in Hne.
  vm_compute in Hne. discriminate.
Qed.

Lemma total_of_nonneg ty ts :
  Forall (λ t, (0 ≤ t_amount t)%Qc) ts → (0 ≤ total_of ty ts)%Qc.
Proof.
  induction 1 as [|t ts Ht _ IH]; cbn [total_of]; [apply Qcle_refl|].
  destruct (decide (t_type t = ty)); [|exact IH].
  replace 0%Qc with (0 + 0)%Qc by ring. apply Qcplus_le_compat; assumption.
Qed.

(** On amounts that are not negative the statement of the specification
    holds as it is. *)
Lemma breakdown_as_stated_nonneg ts :
  Forall (λ t, (0 ≤ t_amount t)%Qc) ts → breakdown_as_stated ts.
Proof.
  intros Hnn. unfold breakdown_as_stated. rewrite calculate_category_breakdown_eq. cbn [fst snd].
  destruct (percentages_of_type "Income" ts) as ([Hi1 Hi2] & _).
  destruct (percentages_of_type "Expense" ts) as ([He1 He2] & _).
  assert (Hpos : ∀ ty, total_of ty ts ≠ 0%Qc → (0 < total_of ty ts)%Qc).
  { intros ty Hne.
    destruct (Qcle_lt_or_eq _ _ (total_of_nonneg ty ts Hnn)) as [Hlt|Heq].
    - exact Hlt.
    - congruence. }
  split; split.
  - intros Hne. apply Hi1, Hpos, Hne.
  - intros Hz. apply Hi2. rewrite Hz. intros Hlt. exact (Qclt_not_eq _ _ Hlt eq_refl).
  - intros Hne. apply He1, Hpos, Hne.
  - intros Hz. apply He2. rewrite Hz. intros Hlt. exact (Qclt_not_eq _ _ Hlt eq_refl).
Qed.

Lemma filter_none ty (ts : list transaction) :
  (∀ t, t ∈ ts → t_type t ≠ ty) → filter (λ t, t_type t = ty) ts = [].
Proof.
  intros Hno. induction ts as [|t ts IH]; [reflexivity|].
  rewrite filter_cons_False by (apply Hno; left).
  apply IH. intros t' Ht'. apply Hno. right. exact Ht'.
Qed.

(** C10. The keys of the income mapping are the categories of the Income
    transactions of the input, each once, and the keys of the expense
    mapping those of its Expense transactions; a type without
    transactions has the empty mapping. *)
Theorem breakdown_keys ts :
  let income_percentages := (calculate_category_breakdown ts).1 in
  let expense_percentages := (calculate_category_breakdown ts).2 in
  (∀ c, c ∈ keys income_percentages ↔
        ∃ t, t ∈ ts ∧ t_type t = "Income" ∧ t_category t = c)
  ∧ (∀ c, c ∈ keys expense_percentages ↔
          ∃ t, t ∈ ts ∧ t_type t = "Expense" ∧ t_category t = c)
  ∧ NoDup (keys income_percentages) ∧ NoDup (keys expense_percentages)
  ∧ ((∀ t, t ∈ ts → t_type t ≠ "Income") → income_percentages = [])
  ∧ ((∀ t, t ∈ ts → t_type t ≠ "Expense") → expense_percentages = []).
Proof.
  intros income_percentages expense_percentages.
  subst income_percentages expense_percentages.
  rewrite calculate_category_breakdown_eq. cbn [fst snd].
  destruct (percentages_of_type "Income" ts) as (_ & _ & Hki & Hni).
  destruct (percentages_of_type "Expense" ts) as (_ & _ & Hke & Hne).
  assert (Hcat : ∀ ty c, c ∈ categories_of ty ts ↔
                         ∃ t, t ∈ ts ∧ t_type t = ty ∧ t_category t = c).
  { intros ty c. unfold categories_of. rewrite list_elem_of_fmap. split.
    - intros (t & -> & Ht). apply list_elem_of_filter in Ht as [Hty Hin].
      exists t. repeat split; assumption.
    - intros (t & Hin & Hty & <-). exists t. split; [reflexivity|].
      apply list_elem_of_filter. split; assumption. }
  split; [intros c; rewrite Hki; apply Hcat|].
  split; [intros c; rewrite Hke; apply Hcat|].
  split; [exact Hni|]. split; [exact Hne|].
  split; intros Hno; rewrite (filter_none _ _ Hno); reflexivity.
Qed.

(** ** The theorems at the scenario of the specification *)

Example scenario_isoformat : isoformat (Date 2024 1 5) = "2024-01-05".
Proof. reflexivity. Qed.

Example scenario_no_such_day : fromisoformat "2023-02-29" = None.
Proof. vm_compute. reflexivity. Qed.

Example scenario_balance :
  match (view_balance ledger).1 with
  | Return balance => this balance = 25%Q
  | _ => False
  end.
Proof. vm_compute. reflexivity. Qed.

Example scenario_totals :
  (this (calculate_totals (transactions (self ledger))).1,
   this (calculate_totals (transactions (self ledger))).2) = (100%Q, 75%Q).
Proof. vm_compute. reflexivity. Qed.

Example scenario_expense_breakdown :
  (λ kv, (kv.1, this kv.2)) <$> (calculate_category_breakdown (transactions (self ledger))).2
  = [("Groceries", (200 # 3)%Q); ("Other-custom", (100 # 3)%Q)].
Proof. vm_compute. reflexivity. Qed.

(** The bounds on the date are inclusive. *)
Example scenario_inclusive_bounds :
  filter_transactions "All" "All" (Some (Date 2024 1 5)) (Some (Date 2024 1 5)) ledger
  = (Return [Transaction (Qc_of_Z 50) "Groceries" "2024-01-05" "Expense"], ledger).
Proof. vm_compute. reflexivity. Qed.

(** A date that cannot be read raises only when a bound asks for it. *)
Example scenario_unreadable_date :
  let w := World {| transactions := [Transaction (Qc_of_Z 1) "Rent" "yesterday" "Expense"];
                    filename := "transactions.json" |} ∅ in
  filter_transactions "All" "All" None None w = (Return (transactions (self w)), w)
  ∧ filter_transactions "All" "All" None (Some (Date 2024 1 5)) w = (Raise ValueError, w)
  ∧ filter_transactions "Salary" "All" None (Some (Date 2024 1 5)) w = (Return [], w).
Proof. vm_compute. repeat split. Qed.

Lemma ledger_dates_readable : dates_readable (transactions (self ledger)).
Proof. repeat constructor; eexists; vm_compute; reflexivity. Defined.

Lemma filter_transactions_conjunctive_witness :
  dates_readable (transactions (self ledger))
  ∧ ∃ out,
      filter_transactions "Other" "Expense" (Some (Date 2024 1 10)) (Some (Date 2024 1 10)) ledger
      = (Return out, ledger)
      ∧ out = filter (selected "Other" "Expense" (Some (Date 2024 1 10)) (Some (Date 2024 1 10)))
                (transactions (self ledger)).
Proof.
  split; [exact ledger_dates_readable|].
  destruct (filter_transactions_conjunctive "Other" "Expense"
              (Some (Date 2024 1 10)) (Some (Date 2024 1 10)) ledger ledger_dates_readable)
    as (out & Hrun & Hout & _).
  exists out. split; [exact Hrun|exact Hout].
Defined.

Lemma delete_transaction_spec_witness :
  (0 ≤ 1 < Z.of_nat (length (transactions (self ledger))))%Z
  ∧ (∃ w', @delete_transaction TallyCodec.codec 1 ledger = (Return tt, w')
       ∧ length (transactions (self w')) = 2)
  ∧ (3 < 0 ∨ Z.of_nat (length (transactions (self ledger))) ≤ 3)%Z
  ∧ @delete_transaction TallyCodec.codec 3 ledger = (Return tt, ledger).
Proof.
  assert (Hin : (0 ≤ 1 < Z.of_nat (length (transactions (self ledger))))%Z) by (cbn; lia).
  assert (Hout : (3 < 0 ∨ Z.of_nat (length (transactions (self ledger))) ≤ 3)%Z)
    by (cbn; lia).
  split; [exact Hin|]. split.
  - destruct (proj1 (@delete_transaction_spec TallyCodec.codec 1 ledger) Hin)
      as (w' & Hrun & _ & Hlen & _).
    exists w'. split; [exact Hrun|exact Hlen].
  - split; [exact Hout|].
    exact (proj2 (@delete_transaction_spec TallyCodec.codec 3 ledger) Hout).
Defined.

Lemma view_balance_spec_witness :
  transactions (self (World {| transactions := []; filename := "transactions.json" |} ∅)) = []
  ∧ view_balance (World {| transactions := []; filename := "transactions.json" |} ∅)
    = (Return 0%Qc, World {| transactions := []; filename := "transactions.json" |} ∅).
Proof.
  split; [reflexivity|].
  exact (proj2 (view_balance_spec
                  (World {| transactions := []; filename := "transactions.json" |} ∅))
               eq_refl).
Defined.

Lemma breakdown_percentages_witness :
  (0 < total_of "Expense" (transactions (self ledger)))%Qc
  ∧ py_sum (values (calculate_category_breakdown (transactions (self ledger))).2)
    = Qc_of_Z 100.
Proof.
  assert (Hpos : (0 < total_of "Expense" (transactions (self ledger)))%Qc)
    by (vm_compute; reflexivity).
  split; [exact Hpos|].
  destruct (breakdown_percentages (transactions (self ledger))) as (_ & [Hsum _] & _).
  exact (Hsum Hpos).
Defined.

Lemma save_load_round_trip_witness :
  (∀ ts, @json_load TallyCodec.codec (@json_dump TallyCodec.codec ts) = Ledger ts)
  ∧ (∅ : gmap string string) !! "transactions.json" = None
  ∧ ∃ w0 w1 w2,
      @__init__ TallyCodec.codec "transactions.json" ∅ = (Return tt, w0)
      ∧ @add_all TallyCodec.codec scenario w0 = (Return tt, w1)
      ∧ @__init__ TallyCodec.codec "transactions.json" (files w1) = (Return tt, w2)
      ∧ transactions (self w2) = stored <$> scenario.
Proof.
  split; [exact TallyCodecFacts.codec_load_dump|]. split; [reflexivity|].
  destruct (@save_load_round_trip TallyCodec.codec TallyCodecFacts.codec_load_dump
              "transactions.json" ∅ scenario)
    as [Hopens Hround].
  destruct (Hopens eq_refl) as [w0 H0].
  destruct (Hround w0 H0) as (w1 & w2 & H1 & H2 & _ & _ & Hfresh).
  exists w0, w1, w2. split; [exact H0|]. split; [exact H1|]. split; [exact H2|].
  apply Hfresh. reflexivity.
Defined.


Lemma add_transaction_appends_witness :
  ∃ w', @add_transaction TallyCodec.codec (Qc_of_Z 30) "Rent" (Date 2024 2 1) "Expense" ledger
        = (Return tt, w')
    ∧ length (transactions (self w')) = 4
    ∧ transactions (self w') !! 0 = transactions (self ledger) !! 0.
Proof.
  destruct (@add_transaction_appends TallyCodec.codec (Qc_of_Z 30) "Rent" (Date 2024 2 1)
              "Expense" ledger)
    as (w' & Hrun & _ & Hlen & Hold & _).
  exists w'. split; [exact Hrun|]. split; [exact Hlen|].
  apply Hold. cbn. lia.
Defined.

Lemma filter_transactions_subsequence_witness :
  dates_readable (transactions (self ledger))
  ∧ ∃ out, filter_transactions "All" "Expense" None (Some (Date 2024 1 5)) ledger
           = (Return out, ledger)
      ∧ out `sublist_of` transactions (self ledger).
Proof.
  split; [exact ledger_dates_readable|].
  destruct (filter_transactions_subsequence "All" "Expense" None (Some (Date 2024 1 5)) ledger)
    as [Hsub Hret].
  destruct (Hret ledger_dates_readable) as [out Hrun].
  exists out. split; [exact Hrun|]. exact (proj1 (Hsub out ledger Hrun)).
Defined.

Lemma breakdown_keys_witness :
  (∀ t, t ∈ [refund] → t_type t ≠ "Income")
  ∧ (calculate_category_breakdown [refund]).1 = [].
Proof.
  assert (Hno : ∀ t, t ∈ [refund] → t_type t ≠ "Income").
  { intros t Ht. apply list_elem_of_singleton in Ht. subst t. discriminate. }
  split; [exact Hno|].
  destruct (breakdown_keys [refund]) as (_ & _ & _ & _ & Hempty & _).
  exact (Hempty Hno).
Defined.

(** * Further properties of the code *)

(** ** Totals and balance *)

Lemma view_balance_run w :
  view_balance w
  = (Return (total_of "Income" (transactions (self w))
             - total_of "Expense" (transactions (self w)))%Qc, w).
Proof.
  unfold view_balance, mbind, M_bind, gets, mret, M_ret.
  rewrite !py_sum_amounts. reflexivity.
Qed.


Lemma total_of_Permutation ty l1 l2 : l1 ≡ₚ l2 → total_of ty l1 = total_of ty l2.
Proof.
  induction 1 as [|t l1 l2 _ IH|t t' l|l1 l2 l3 _ IH1 _ IH2]; cbn [total_of].
  - reflexivity.
  - rewrite IH. reflexivity.
  - destruct (decide (t_type t = ty)), (decide (t_type t' = ty)); try reflexivity. ring.
  - congruence.
Qed.


(** X1. [calculate_totals] returns the sum of the amounts of the Income
    transactions and the sum of the amounts of the Expense transactions of
    its argument; a transaction of another type counts in neither; on the
    list of the store the difference of the two is the balance. *)
Theorem calculate_totals_by_type ts :
  calculate_totals ts = (total_of "Income" ts, total_of "Expense" ts)
  ∧ (∀ t, t_type t ≠ "Income" → t_type t ≠ "Expense" →
          calculate_totals (t :: ts) = calculate_totals ts)
  ∧ (∀ w, transactions (self w) = ts →
          view_balance w
          = (Return ((calculate_totals ts).1 - (calculate_totals ts).2)%Qc, w)).
Proof.
  split; [apply calculate_totals_spec|]. split.
  - intros t Hi He. rewrite !calculate_totals_spec. cbn [total_of].
    rewrite !decide_False by assumption. reflexivity.
  - intros w <-. rewrite view_balance_run, calculate_totals_spec. reflexivity.
Qed.

(** X2. The totals do not depend on the order of the transactions. *)
Theorem calculate_totals_permutation ts ts' :
  ts ≡ₚ ts' → calculate_totals ts = calculate_totals ts'.
Proof.
  intros Hperm. rewrite !calculate_totals_spec.
  rewrite (total_of_Permutation "Income" ts ts' Hperm).
  rewrite (total_of_Permutation "Expense" ts ts' Hperm). reflexivity.
Qed.

Section balance_facts.
Context `{!Json}.



End balance_facts.

(** ** Sessions *)

Section session_facts.
Context `{!Json}.

(** One call of a session: it returns, keeps the name of the file, writes
    no other file, and either changes nothing or leaves in the file the
    text of the new list. *)
Lemma run_command_run c w :
  ∃ w', run_command c w = (Return tt, w')
    ∧ filename (self w') = filename (self w)
    ∧ (∀ other, other ≠ filename (self w) → files w' !! other = files w !! other)
    ∧ (w' = w
       ∨ files w' !! filename (self w) = Some (json_dump (transactions (self w'))))
    ∧ (valid_command c → dates_readable (transactions (self w)) →
       dates_readable (transactions (self w'))).
Proof.
  destruct c as [e|index]; cbn [run_command valid_command].
  - eexists. split; [apply add_transaction_run|]. cbn [self filename files transactions].
    split; [reflexivity|]. split.
    { intros other Hother. apply lookup_insert_ne. congruence. }
    split; [right; apply lookup_insert_eq|].
    intros Hvalid Hread. apply Forall_app. split; [exact Hread|].
    apply Forall_singleton. unfold date_of. cbn [t_date].
    rewrite fromisoformat_isoformat by exact Hvalid. eexists. reflexivity.
  - destruct (decide (0 ≤ index < Z.of_nat (length (transactions (self w))))%Z) as [Hin|Hout].
    + eexists. split; [apply delete_transaction_in_range; exact Hin|].
      cbn [self filename files transactions].
      split; [reflexivity|]. split.
      { intros other Hother. apply lookup_insert_ne. congruence. }
      split; [right; apply lookup_insert_eq|].
      intros _ Hread. apply Forall_delete. exact Hread.
    + exists w. split; [apply delete_transaction_out_of_range; exact Hout|].
      split; [reflexivity|]. split; [reflexivity|]. split; [left; reflexivity|].
      intros _ Hread. exact Hread.
Qed.

Lemma run_commands_run cs w :
  ∃ w', run_commands cs w = (Return tt, w')
    ∧ filename (self w') = filename (self w)
    ∧ (∀ other, other ≠ filename (self w) → files w' !! other = files w !! other)
    ∧ (w' = w
       ∨ files w' !! filename (self w) = Some (json_dump (transactions (self w'))))
    ∧ (Forall valid_command cs → dates_readable (transactions (self w)) →
       dates_readable (transactions (self w'))).
Proof.
  revert w. induction cs as [|c cs IH]; intros w.
  - exists w. split; [reflexivity|]. split; [reflexivity|]. split; [reflexivity|].
    split; [left; reflexivity|]. intros _ Hread. exact Hread.
  - destruct (run_command_run c w) as (w1 & Hrun1 & Hname1 & Hframe1 & Hsync1 & Hdates1).
    destruct (IH w1) as (w2 & Hrun2 & Hname2 & Hframe2 & Hsync2 & Hdates2).
    exists w2. split.
    { cbn [run_commands]. unfold mbind, M_bind at 1. rewrite Hrun1. exact Hrun2. }
    split; [congruence|]. split.
    { intros other Hother. rewrite Hframe2 by congruence. apply Hframe1. exact Hother. }
    split.
    { destruct Hsync2 as [->|Hsync2].
      - destruct Hsync1 as [->|Hsync1]; [left; reflexivity|right; exact Hsync1].
      - right. rewrite <- Hname1. exact Hsync2. }
    intros Hvalid Hread. apply Forall_cons in Hvalid as [Hc Hcs].
    apply Hdates2; [exact Hcs|]. apply Hdates1; assumption.
Qed.

(** X5. A session never raises, never changes the name of the file of
    the store, and never writes another file than this one. *)
Theorem session_writes_own_file_only cs w :
  ∃ w', run_commands cs w = (Return tt, w')
    ∧ filename (self w') = filename (self w)
    ∧ ∀ other, other ≠ filename (self w) → files w' !! other = files w !! other.
Proof.
  destruct (run_commands_run cs w) as (w' & Hrun & Hname & Hframe & _).
  exists w'. split; [exact Hrun|]. split; [exact Hname|exact Hframe].
Qed.

(** X6. When the dates given to the additions are calendar dates, a
    session keeps every stored date readable: after it the filter returns,
    for all its arguments, the selection; it does not raise. *)
Theorem session_keeps_dates_readable cs w :
  Forall valid_command cs →
  dates_readable (transactions (self w)) →
  ∃ w', run_commands cs w = (Return tt, w')
    ∧ dates_readable (transactions (self w'))
    ∧ ∀ c ty sd ed,
        filter_transactions c ty sd ed w'
        = (Return (filter (selected c ty sd ed) (transactions (self w'))), w').
Proof.
  intros Hvalid Hread.
  destruct (run_commands_run cs w) as (w' & Hrun & _ & _ & _ & Hdates).
  exists w'. split; [exact Hrun|].
  split; [apply Hdates; assumption|].
  intros c ty sd ed. apply filter_transactions_readable. apply Hdates; assumption.
Qed.

Hypothesis json_load_dump : ∀ ts, json_load (json_dump ts) = Ledger ts.

(** X7. Whatever the session of additions and deletions of a store
    opened on a file, a new store opened on the file afterwards holds the
    list that the first store holds. On a file that does not exist the
    first store does open. *)
Theorem session_reload name fs cs :
  (fs !! name = None → ∃ w0, __init__ name fs = (Return tt, w0))
  ∧ ∀ w0,
      __init__ name fs = (Return tt, w0) →
      ∃ w1 w2,
        run_commands cs w0 = (Return tt, w1)
        ∧ __init__ name (files w1) = (Return tt, w2)
        ∧ transactions (self w2) = transactions (self w1).
Proof.
  split.
  { intros Habsent. eexists. apply init_absent. exact Habsent. }
  intros w0 Hinit.
  destruct (init_returns name fs w0 Hinit) as [Hfiles Hname0].
  destruct (run_commands_run cs w0) as (w1 & Hrun & _ & _ & Hsync & _).
  exists w1. destruct Hsync as [->|Hsync].
  - exists w0. split; [exact Hrun|]. split; [|reflexivity].
    rewrite Hfiles. exact Hinit.
  - eexists. split; [exact Hrun|]. split.
    + eapply init_ledger; [|apply json_load_dump]. rewrite <- Hname0. exact Hsync.
    + reflexivity.
Qed.

(** X8. Saving and then loading leaves the store as it was: the list
    that was saved is the list that is loaded. *)
Theorem save_then_load w :
  (save_transactions;; load_transactions) w
  = (Return tt,
     World (self w)
           (<[filename (self w) := json_dump (transactions (self w))]> (files w))).
Proof.
  unfold mbind, M_bind at 1. rewrite save_transactions_run, load_transactions_run.
  cbn [self files filename transactions].
  rewrite lookup_insert_eq, json_load_dump.
  destruct w as [[ts name] fs]. reflexivity.
Qed.

End session_facts.

(** ** More on filtering *)

Lemma date_le_refl d : date_le d d.
Proof. unfold date_le. lia. Qed.

Lemma date_le_trans a b c : date_le a b → date_le b c → date_le a c.
Proof. unfold date_le. lia. Qed.

Lemma date_le_antisym a b : date_le a b → date_le b a → a = b.
Proof.
  destruct a as [ya ma da], b as [yb mb db]. unfold date_le. cbn.
  intros Hab Hba. f_equal; lia.
Qed.

Lemma filter_transactions_no_bounds c ty w :
  filter_transactions c ty None None w
  = (Return (filter (selected c ty None None) (transactions (self w))), w).
Proof.
  destruct (filter_transactions_cases c ty None None w) as [Hret|[Hraise _]];
    [exact Hret|].
  apply filter_transactions_raises in Hraise as [[[? Hsome]|[? Hsome]] _]; discriminate.
Qed.

(** X9. The filter returns the selection whenever no bound on the date
    is given, or every transaction that passes the category and the type
    conditions has a stored date of the form [YYYY-MM-DD] that is a
    calendar date; the stored date of a transaction that these conditions
    exclude is not read. When the filter raises, it raises [ValueError],
    the store is as it was, a bound is given, and one of the passing
    transactions has a stored date that is not of this form. *)
Theorem filter_transactions_outcome c ty sd ed w :
  let passing :=
    filter (type_pred ty) (filter (category_pred c) (transactions (self w))) in
  ((is_Some sd ∨ is_Some ed → dates_readable passing) →
   filter_transactions c ty sd ed w
   = (Return (filter (selected c ty sd ed) (transactions (self w))), w))
  ∧ (∀ e w', filter_transactions c ty sd ed w = (Raise e, w') →
       e = ValueError ∧ w' = w ∧ (is_Some sd ∨ is_Some ed) ∧ ¬ dates_readable passing).
Proof.
  intros passing. split.
  - intros Hgood.
    destruct (filter_transactions_cases c ty sd ed w) as [Hret|[Hraise _]];
      [exact Hret|].
    apply filter_transactions_raises in Hraise as [Hbound Hbad].
    exfalso. apply Hbad, Hgood, Hbound.
  - intros e w' Hrun.
    destruct (filter_transactions_cases c ty sd ed w) as [Hret|[Hraise _]].
    + rewrite Hret in Hrun. discriminate.
    + pose proof Hraise as Hcond. apply filter_transactions_raises in Hcond.
      rewrite Hraise in Hrun. injection Hrun as <- <-.
      split; [reflexivity|]. split; [reflexivity|exact Hcond].
Qed.

Lemma selected_date_readable c ty sd ed t :
  is_Some sd ∨ is_Some ed → selected c ty sd ed t → is_Some (date_of t).
Proof.
  intros Hbound (_ & _ & Hs & He).
  destruct Hbound as [[s ->]|[e ->]].
  - unfold start_pred, date_holds in Hs. destruct (date_of t); [eexists; reflexivity|contradiction].
  - unfold end_pred, date_holds in He. destruct (date_of t); [eexists; reflexivity|contradiction].
Qed.

(** X10. Filtering again what the filter returned, with the same
    arguments, returns it unchanged. *)
Theorem filter_transactions_idempotent c ty sd ed w out :
  filter_transactions c ty sd ed w = (Return out, w) →
  filter_transactions c ty sd ed (with_transactions out w)
  = (Return out, with_transactions out w).
Proof.
  intros Hrun.
  assert (Hout : out = filter (selected c ty sd ed) (transactions (self w))).
  { destruct (filter_transactions_cases c ty sd ed w) as [Hret|[Hraise _]].
    - rewrite Hret in Hrun. injection Hrun as <-. reflexivity.
    - rewrite Hraise in Hrun. discriminate. }
  assert (Hagain : filter (selected c ty sd ed) out = out).
  { rewrite Hout. apply list_filter_filter_l. tauto. }
  destruct (filter_transactions_cases c ty sd ed (with_transactions out w))
    as [Hret|[Hraise _]].
  - rewrite Hret. cbn [with_transactions self transactions]. rewrite Hagain. reflexivity.
  - apply filter_transactions_raises in Hraise as [Hbound Hbad].
    exfalso. apply Hbad. cbn [with_transactions self transactions].
    apply dates_readable_filter, dates_readable_filter.
    unfold dates_readable. rewrite Forall_forall. intros t Ht.
    rewrite Hout in Ht. apply list_elem_of_filter in Ht as [Hsel _].
    eapply selected_date_readable; eassumption.
Qed.

Lemma start_pred_wider wide narrow t :
  wider_start wide narrow → start_pred narrow t → start_pred wide t.
Proof.
  destruct wide as [s'|], narrow as [s|]; cbn; try tauto.
  unfold date_holds. destruct (date_of t) as [d|]; [|tauto].
  intros Hle Hsd. eapply date_le_trans; eassumption.
Qed.

Lemma end_pred_wider wide narrow t :
  wider_end wide narrow → end_pred narrow t → end_pred wide t.
Proof.
  destruct wide as [e'|], narrow as [e|]; cbn; try tauto.
  unfold date_holds. destruct (date_of t) as [d|]; [|tauto].
  intros Hle Hde. eapply date_le_trans; eassumption.
Qed.

(** X11. A wider range of dates selects more: what the filter returns for
    a range is a subsequence of what it returns, with the same category and
    type, for a range that starts no later and ends no earlier, or that has
    no bound where the first has one. *)
Theorem filter_transactions_range_monotone c ty sd ed sd' ed' w :
  dates_readable (transactions (self w)) →
  wider_start sd' sd → wider_end ed' ed →
  ∃ narrow wide,
    filter_transactions c ty sd ed w = (Return narrow, w)
    ∧ filter_transactions c ty sd' ed' w = (Return wide, w)
    ∧ narrow `sublist_of` wide.
Proof.
  intros Hread Hs He. eexists. eexists.
  split; [apply filter_transactions_readable; exact Hread|].
  split; [apply filter_transactions_readable; exact Hread|].
  rewrite <- (list_filter_filter_l (selected c ty sd ed) (selected c ty sd' ed')).
  - apply sublist_filter.
  - intros t (Hc & Hty & Hsd & Hed). repeat split; try assumption.
    + eapply start_pred_wider; eassumption.
    + eapply end_pred_wider; eassumption.
Qed.

Lemma filter_nothing {A} (P : A → Prop) `{!∀ x, Decision (P x)} (l : list A) :
  (∀ x, ¬ P x) → filter P l = [].
Proof.
  intros HP. induction l as [|x l IH]; [reflexivity|].
  rewrite filter_cons_False by apply HP. exact IH.
Qed.

(** X12. A range whose start is after its end selects nothing. *)
Theorem filter_transactions_empty_range c ty s e w :
  dates_readable (transactions (self w)) →
  ¬ date_le s e →
  filter_transactions c ty (Some s) (Some e) w = (Return [], w).
Proof.
  intros Hread Hse. rewrite filter_transactions_readable by exact Hread.
  rewrite filter_nothing; [reflexivity|].
  intros t (_ & _ & Hs & He). apply Hse.
  unfold start_pred, end_pred, date_holds in Hs, He.
  destruct (date_of t) as [d|]; [|contradiction].
  eapply date_le_trans; eassumption.
Qed.

(** The transactions of a list, sorted out by category: those of each
    category of a list without repetition, then those of no category of the
    list. *)
Lemma partition_by_category (cs : list string) (l : list transaction) :
  NoDup cs →
  concat ((λ c, filter (λ t, t_category t = c) l) <$> cs)
    ++ filter (λ t, t_category t ∉ cs) l ≡ₚ l.
Proof.
  induction 1 as [|c cs Hc _ IH].
  - cbn. apply reflexive_eq. apply filter_all. intros t. apply not_elem_of_nil.
  - cbn [fmap list_fmap concat].
    rewrite <- IH at 3.
    rewrite <- (filter_app_complement (λ t, t_category t = c)
                  (filter (λ t, t_category t ∉ cs) l)).
    rewrite (list_filter_filter_l (λ t, t_category t = c) (λ t, t_category t ∉ cs))
      by (intros t ->; exact Hc).
    rewrite (list_filter_filter (λ t, ¬ t_category t = c) (λ t, t_category t ∉ cs)).
    rewrite (list_filter_iff (λ t, ¬ t_category t = c ∧ t_category t ∉ cs)
               (λ t, t_category t ∉ c :: cs))
      by (intros t; rewrite not_elem_of_cons; tauto).
    rewrite <- !app_assoc.
    rewrite (Permutation_app_comm (concat _) (filter (λ t, t_category t = c) l ++ _)).
    rewrite <- !app_assoc. apply Permutation_app_head.
    apply Permutation_app_comm.
Qed.

Lemma NoDup_predefined_categories : NoDup predefined_categories.
Proof. compute_done. Qed.

Lemma category_pred_predefined c t :
  c ∈ predefined_categories → category_pred c t ↔ t_category t = c.
Proof.
  intros Hc. unfold predefined_categories in Hc.
  repeat (apply elem_of_cons in Hc as [->|Hc]; [reflexivity|]).
  apply elem_of_nil in Hc. contradiction.
Qed.

Lemma category_pred_other t :
  category_pred "Other" t ↔ t_category t ∉ predefined_categories.
Proof. reflexivity. Qed.

Lemma category_pred_all t : category_pred "All" t.
Proof. exact I. Qed.

(** The views of a list by each of the categories that the filter offers,
    put together, hold each transaction of the list once. *)
Lemma category_choices_partition (l : list transaction) :
  concat ((λ c, filter (category_pred c) l) <$> category_choices) ≡ₚ l.
Proof.
  unfold category_choices. rewrite fmap_app, concat_app.
  assert (Hother : concat ((λ c, filter (category_pred c) l) <$> ["Other"])
                   = filter (λ t, t_category t ∉ predefined_categories) l).
  { cbn [fmap list_fmap concat]. rewrite app_nil_r.
    apply list_filter_iff. intros t. apply category_pred_other. }
  rewrite Hother.
  etrans; [|apply (partition_by_category predefined_categories l
                     NoDup_predefined_categories)].
  apply reflexive_eq. f_equal.
Qed.

(** X13. For a type and a range of dates, the views by each of the five
    predefined categories and by "Other", put together, hold each
    transaction of the view by "All" once, and nothing else. *)
Theorem category_views_partition ty sd ed w :
  dates_readable (transactions (self w)) →
  ∃ views all,
    Forall2 (λ c view, filter_transactions c ty sd ed w = (Return view, w))
            category_choices views
    ∧ filter_transactions "All" ty sd ed w = (Return all, w)
    ∧ concat views ≡ₚ all.
Proof.
  intros Hread.
  exists ((λ c, filter (selected c ty sd ed) (transactions (self w))) <$> category_choices).
  eexists. split; [|split; [apply filter_transactions_readable; exact Hread|]].
  - apply Forall2_fmap_r, Forall_Forall2_diag, Forall_forall.
    intros c _. apply filter_transactions_readable. exact Hread.
  - set (rest := λ t, type_pred ty t ∧ start_pred sd t ∧ end_pred ed t).
    rewrite (list_filter_iff (selected "All" ty sd ed) rest)
      by (intros t; unfold selected, rest; pose proof (category_pred_all t); tauto).
    rewrite <- (category_choices_partition (filter rest (transactions (self w)))).
    apply reflexive_eq. f_equal. apply list_fmap_ext. intros _ c _.
    rewrite list_filter_filter. apply list_filter_iff. intros t. reflexivity.
Qed.

Lemma total_of_filter_type ty ty' (l : list transaction) :
  total_of ty (filter (λ t, t_type t = ty') l)
  = if decide (ty' = ty) then total_of ty l else 0%Qc.
Proof.
  induction l as [|t l IH]; [destruct (decide (ty' = ty)); reflexivity|].
  rewrite filter_cons. cbn [total_of].
  destruct (decide (t_type t = ty')) as [Ht|Ht]; cbn [total_of]; rewrite IH.
  - destruct (decide (ty' = ty)) as [Heq|Hne].
    + rewrite !decide_True by congruence. reflexivity.
    + rewrite decide_False by congruence. reflexivity.
  - destruct (decide (ty' = ty)) as [Heq|Hne]; [|reflexivity].
    rewrite decide_False by congruence. reflexivity.
Qed.

Lemma selected_type_only ty t :
  ty ≠ "All" → ty ≠ EmptyString →
  selected "All" ty None None t ↔ t_type t = ty.
Proof.
  intros Hall Hempty. unfold selected, type_pred.
  rewrite decide_False by (intros [?|?]; contradiction).
  split; [tauto|]. intros Hty. repeat split; try exact I. exact Hty.
Qed.

(** X14. The totals of the view by type Income are the income of the
    whole store and no expense; those of the view by type Expense are no
    income and the expense of the whole store. *)
Theorem type_view_totals w :
  (∃ incomes,
      filter_transactions "All" "Income" None None w = (Return incomes, w)
      ∧ calculate_totals incomes = (total_of "Income" (transactions (self w)), 0%Qc))
  ∧ (∃ expenses,
      filter_transactions "All" "Expense" None None w = (Return expenses, w)
      ∧ calculate_totals expenses = (0%Qc, total_of "Expense" (transactions (self w)))).
Proof.
  split; eexists; (split; [apply filter_transactions_no_bounds|]);
    rewrite calculate_totals_spec.
  - rewrite (list_filter_iff (selected "All" "Income" None None)
               (λ t, t_type t = "Income")) by (intros t; apply selected_type_only; discriminate).
    rewrite !total_of_filter_type. reflexivity.
  - rewrite (list_filter_iff (selected "All" "Expense" None None)
               (λ t, t_type t = "Expense")) by (intros t; apply selected_type_only; discriminate).
    rewrite !total_of_filter_type. reflexivity.
Qed.

Section found_facts.
Context `{!Json}.

(** X15. A transaction added with a calendar date is found by the filter
    whose two bounds are this date, and what this filter returns are the
    transactions of this date. *)
Theorem added_transaction_found amount category d ty w :
  valid_date d →
  dates_readable (transactions (self w)) →
  ∃ w' out,
    add_transaction amount category d ty w = (Return tt, w')
    ∧ filter_transactions "All" "All" (Some d) (Some d) w' = (Return out, w')
    ∧ Transaction amount category (isoformat d) ty ∈ out
    ∧ ∀ t, t ∈ out ↔ t ∈ transactions (self w') ∧ date_of t = Some d.
Proof.
  intros Hvalid Hread. eexists. eexists.
  split; [apply add_transaction_run|]. cbn zeta.
  set (new := Transaction amount category (isoformat d) ty).
  set (w' := World _ _).
  assert (Hnew : date_of new = Some d).
  { unfold date_of, new. cbn [t_date]. apply fromisoformat_isoformat. exact Hvalid. }
  assert (Hread' : dates_readable (transactions (self w'))).
  { unfold w'. cbn [self transactions]. apply Forall_app. split; [exact Hread|].
    apply Forall_singleton. rewrite Hnew. eexists. reflexivity. }
  split; [apply filter_transactions_readable; exact Hread'|].
  assert (Hsel : ∀ t, selected "All" "All" (Some d) (Some d) t ↔ date_of t = Some d).
  { intros t. unfold selected, start_pred, end_pred, date_holds.
    destruct (date_of t) as [d'|].
    - split.
      + intros (_ & _ & H1 & H2). f_equal. apply date_le_antisym; assumption.
      + intros [= ->]. repeat split; try exact I; apply date_le_refl.
    - split; [tauto|discriminate]. }
  split.
  - apply list_elem_of_filter. split; [apply Hsel; exact Hnew|].
    unfold w'. cbn [self transactions]. apply elem_of_app. right. left.
  - intros t. rewrite list_elem_of_filter, Hsel. tauto.
Qed.

End found_facts.

(** ** More on the breakdown *)

(** The keys after the loop: those that were there, then the new
    categories in the order in which they first come. *)
Lemma keys_sum_by_category_order d l :
  keys (sum_by_category d l)
  = keys d ++ filter (λ c, c ∉ keys d) (first_occurrences (t_category <$> l)).
Proof.
  revert d. induction l as [|t l IH]; intros d.
  - cbn. rewrite app_nil_r. reflexivity.
  - rewrite sum_by_category_cons, IH, keys_dict_iadd.
    rewrite fmap_cons. cbn [first_occurrences].
    set (first := first_occurrences (t_category <$> l)).
    destruct (decide (t_category t ∈ keys d)) as [Hin|Hnin].
    + rewrite filter_cons_False by (intros Hn; contradiction).
      rewrite list_filter_filter_l; [reflexivity|].
      intros c Hc ->. contradiction.
    + rewrite filter_cons_True by exact Hnin.
      rewrite list_filter_filter, <- app_assoc. cbn [app]. do 2 f_equal.
      apply list_filter_iff. intros c.
      rewrite not_elem_of_app, list_elem_of_singleton. tauto.
Qed.

(** X16. The keys of each mapping come in the order in which the
    categories first occur among the transactions of the type. *)
Theorem breakdown_keys_order ts :
  keys (calculate_category_breakdown ts).1 = first_occurrences (categories_of "Income" ts)
  ∧ keys (calculate_category_breakdown ts).2
    = first_occurrences (categories_of "Expense" ts).
Proof.
  rewrite calculate_category_breakdown_eq. cbn [fst snd].
  rewrite !keys_percentages, !keys_sum_by_category_order. unfold categories_of.
  cbn [keys fmap list_fmap app].
  split; apply filter_all; intros c; apply not_elem_of_nil.
Qed.

Lemma total_of_filter_le ty (P : transaction → Prop) `{!∀ t, Decision (P t)} l :
  Forall (λ t, (0 ≤ t_amount t)%Qc) l →
  (0 ≤ total_of ty (filter P l) ≤ total_of ty l)%Qc.
Proof.
  induction 1 as [|t l Ht _ [IH0 IH]]; [split; apply Qcle_refl|].
  rewrite filter_cons.
  destruct (decide (P t)); cbn [total_of]; destruct (decide (t_type t = ty)).
  - split; [apply Qcplus_nonneg_nonneg; assumption|].
    apply Qcplus_le_mono_l. exact IH.
  - split; assumption.
  - split; [exact IH0|].
    apply Qcle_trans with (total_of ty l); [exact IH|].
    rewrite <- (Qcplus_0_l (total_of ty l)) at 1.
    apply Qcplus_le_mono_r. exact Ht.
  - split; assumption.
Qed.

Lemma percentage_bounds total amount :
  (0 ≤ amount ≤ total)%Qc → (0 ≤ percentage total amount ≤ Qc_of_Z 100)%Qc.
Proof.
  intros [H0 Hle].
  assert (H100 : (0 ≤ Qc_of_Z 100)%Qc).
  { compute_done. }
  unfold percentage. destruct (decide (0 < total)%Qc) as [Hpos|Hneg]; [|split; [apply Qcle_refl|exact H100]].
  assert (Hinv : (0 ≤ / total)%Qc) by (apply Qclt_le_weak, Qcinv_pos; exact Hpos).
  unfold Qcdiv. split.
  - apply Qcmult_nonneg_nonneg; [|exact H100].
    apply Qcmult_nonneg_nonneg; assumption.
  - rewrite <- (Qcmult_1_l (Qc_of_Z 100)) at 2.
    apply Qcmult_le_mono_nonneg_r; [exact H100|].
    rewrite <- (Qcmult_inv_r total) by (intros ->; exact (Qclt_not_eq _ _ Hpos eq_refl)).
    apply Qcmult_le_mono_nonneg_r; assumption.
Qed.

(** X17. When no amount is negative, every percentage of the two
    mappings lies between 0 and 100. *)
Theorem breakdown_percentages_bounds ts :
  Forall (λ t, (0 ≤ t_amount t)%Qc) ts →
  ∀ c p,
    (c, p) ∈ (calculate_category_breakdown ts).1
    ∨ (c, p) ∈ (calculate_category_breakdown ts).2 →
    (0 ≤ p ≤ Qc_of_Z 100)%Qc.
Proof.
  intros Hnn c p. rewrite calculate_category_breakdown_eq. cbn [fst snd].
  destruct (percentages_of_type "Income" ts) as (_ & Hgi & _).
  destruct (percentages_of_type "Expense" ts) as (_ & Hge & _).
  intros [Hin|Hin].
  - rewrite (Hgi c p Hin). apply percentage_bounds.
    unfold total_in. apply total_of_filter_le. exact Hnn.
  - rewrite (Hge c p Hin). apply percentage_bounds.
    unfold total_in. apply total_of_filter_le. exact Hnn.
Qed.

Lemma total_of_filter_keep ty (P : transaction → Prop) `{!∀ t, Decision (P t)} l :
  (∀ t, t_type t = ty → P t) → total_of ty (filter P l) = total_of ty l.
Proof.
  intros HP. induction l as [|t l IH]; [reflexivity|].
  rewrite filter_cons. destruct (decide (P t)) as [Hp|Hp]; cbn [total_of]; rewrite IH.
  - reflexivity.
  - rewrite decide_False; [reflexivity|]. intros Hty. apply Hp, HP, Hty.
Qed.

Lemma breakdown_of_filter (P : transaction → Prop) `{!∀ t, Decision (P t)} ty ts :
  (∀ t, t_type t = ty → P t) →
  (λ kv : string * Qc, (kv.1, percentage (total_of ty (filter P ts)) kv.2))
    <$> sum_by_category [] (filter (λ t, t_type t = ty) (filter P ts))
  = (λ kv : string * Qc, (kv.1, percentage (total_of ty ts) kv.2))
    <$> sum_by_category [] (filter (λ t, t_type t = ty) ts).
Proof.
  intros HP. rewrite total_of_filter_keep by exact HP.
  rewrite list_filter_filter_l by exact HP. reflexivity.
Qed.

(** X18. Each mapping depends on the transactions of its type only: the
    income mapping of a list is that of its Income transactions, the
    expense mapping that of its Expense transactions, and the transactions
    of any other type change neither. *)
Theorem breakdown_by_type_only ts :
  (calculate_category_breakdown ts).1
  = (calculate_category_breakdown (filter (λ t, t_type t = "Income") ts)).1
  ∧ (calculate_category_breakdown ts).2
    = (calculate_category_breakdown (filter (λ t, t_type t = "Expense") ts)).2
  ∧ calculate_category_breakdown ts
    = calculate_category_breakdown
        (filter (λ t, t_type t = "Income" ∨ t_type t = "Expense") ts).
Proof.
  rewrite !calculate_category_breakdown_eq. cbn [fst snd].
  split; [|split].
  - symmetry. apply (breakdown_of_filter (λ t, t_type t = "Income")). tauto.
  - symmetry. apply (breakdown_of_filter (λ t, t_type t = "Expense")). tauto.
  - symmetry. f_equal.
    + apply (breakdown_of_filter (λ t, t_type t = "Income" ∨ t_type t = "Expense")). tauto.
    + apply (breakdown_of_filter (λ t, t_type t = "Income" ∨ t_type t = "Expense")). tauto.
Qed.

(** ** The further properties at the scenario *)

Lemma calculate_totals_by_type_witness :
  transactions (self ledger) = transactions (self ledger)
  ∧ view_balance ledger
    = (Return ((calculate_totals (transactions (self ledger))).1
               - (calculate_totals (transactions (self ledger))).2)%Qc, ledger).
Proof.
  split; [reflexivity|].
  exact (proj2 (proj2 (calculate_totals_by_type (transactions (self ledger))))
               ledger eq_refl).
Defined.

Lemma calculate_totals_permutation_witness :
  transactions (self ledger) ≡ₚ reverse (transactions (self ledger))
  ∧ calculate_totals (transactions (self ledger))
    = calculate_totals (reverse (transactions (self ledger))).
Proof.
  assert (Hperm : transactions (self ledger) ≡ₚ reverse (transactions (self ledger))).
  { symmetry. apply reverse_Permutation. }
  split; [exact Hperm|]. exact (calculate_totals_permutation _ _ Hperm).
Defined.


Lemma session_writes_own_file_only_witness :
  "notes.txt" ≠ filename (self damaged)
  ∧ ∃ w', @run_commands TallyCodec.codec scenario_session damaged = (Return tt, w')
      ∧ files w' !! "notes.txt" = files damaged !! "notes.txt".
Proof.
  assert (Hother : "notes.txt" ≠ filename (self damaged)) by discriminate.
  split; [exact Hother|].
  destruct (@session_writes_own_file_only TallyCodec.codec scenario_session damaged)
    as (w' & Hrun & _ & Hframe).
  exists w'. split; [exact Hrun|]. exact (Hframe "notes.txt" Hother).
Defined.

Lemma scenario_session_valid : Forall valid_command scenario_session.
Proof. repeat constructor; compute_done. Defined.

Lemma session_keeps_dates_readable_witness :
  Forall valid_command scenario_session
  ∧ dates_readable (transactions (self ledger))
  ∧ ∃ w', @run_commands TallyCodec.codec scenario_session ledger = (Return tt, w')
      ∧ dates_readable (transactions (self w')).
Proof.
  split; [exact scenario_session_valid|]. split; [exact ledger_dates_readable|].
  destruct (@session_keeps_dates_readable TallyCodec.codec scenario_session ledger
              scenario_session_valid ledger_dates_readable)
    as (w' & Hrun & Hread & _).
  exists w'. split; [exact Hrun|exact Hread].
Defined.

Lemma session_reload_witness :
  (∀ ts, @json_load TallyCodec.codec (@json_dump TallyCodec.codec ts) = Ledger ts)
  ∧ (∅ : gmap string string) !! "transactions.json" = None
  ∧ ∃ w0 w1 w2,
      @__init__ TallyCodec.codec "transactions.json" ∅ = (Return tt, w0)
      ∧ @run_commands TallyCodec.codec scenario_session w0 = (Return tt, w1)
      ∧ @__init__ TallyCodec.codec "transactions.json" (files w1) = (Return tt, w2)
      ∧ transactions (self w2) = transactions (self w1).
Proof.
  split; [exact TallyCodecFacts.codec_load_dump|]. split; [reflexivity|].
  destruct (@session_reload TallyCodec.codec TallyCodecFacts.codec_load_dump
              "transactions.json" ∅ scenario_session)
    as [Hopens Hreload].
  destruct (Hopens eq_refl) as [w0 H0].
  destruct (Hreload w0 H0) as (w1 & w2 & H1 & H2 & Hsame).
  exists w0, w1, w2. split; [exact H0|]. split; [exact H1|]. split; [exact H2|exact Hsame].
Defined.

Lemma save_then_load_witness :
  (∀ ts, @json_load TallyCodec.codec (@json_dump TallyCodec.codec ts) = Ledger ts)
  ∧ (@save_transactions TallyCodec.codec;; @load_transactions TallyCodec.codec) damaged
    = (Return tt,
       World (self damaged)
             (<[filename (self damaged) := TallyCodec.dump (transactions (self damaged))]>
                (files damaged))).
Proof.
  split; [exact TallyCodecFacts.codec_load_dump|].
  exact (@save_then_load TallyCodec.codec TallyCodecFacts.codec_load_dump damaged).
Defined.

Lemma filter_transactions_idempotent_witness :
  filter_transactions "All" "Expense" None (Some (Date 2024 1 5)) ledger
  = (Return [Transaction (Qc_of_Z 50) "Groceries" "2024-01-05" "Expense"], ledger)
  ∧ filter_transactions "All" "Expense" None (Some (Date 2024 1 5))
      (with_transactions [Transaction (Qc_of_Z 50) "Groceries" "2024-01-05" "Expense"] ledger)
    = (Return [Transaction (Qc_of_Z 50) "Groceries" "2024-01-05" "Expense"],
       with_transactions [Transaction (Qc_of_Z 50) "Groceries" "2024-01-05" "Expense"] ledger).
Proof.
  assert (Hrun : filter_transactions "All" "Expense" None (Some (Date 2024 1 5)) ledger
                 = (Return [Transaction (Qc_of_Z 50) "Groceries" "2024-01-05" "Expense"],
                    ledger))
    by (vm_compute; reflexivity).
  split; [exact Hrun|].
  exact (filter_transactions_idempotent _ _ _ _ _ _ Hrun).
Defined.

Lemma filter_transactions_range_monotone_witness :
  dates_readable (transactions (self ledger))
  ∧ wider_start None (Some (Date 2024 1 5))
  ∧ wider_end (Some (Date 2024 1 10)) (Some (Date 2024 1 5))
  ∧ ∃ narrow wide,
      filter_transactions "All" "All" (Some (Date 2024 1 5)) (Some (Date 2024 1 5)) ledger
      = (Return narrow, ledger)
      ∧ filter_transactions "All" "All" None (Some (Date 2024 1 10)) ledger
        = (Return wide, ledger)
      ∧ narrow `sublist_of` wide.
Proof.
  assert (Hs : wider_start None (Some (Date 2024 1 5))) by exact I.
  assert (He : wider_end (Some (Date 2024 1 10)) (Some (Date 2024 1 5)))
    by (unfold wider_end, date_le; cbn; lia).
  split; [exact ledger_dates_readable|]. split; [exact Hs|]. split; [exact He|].
  exact (filter_transactions_range_monotone "All" "All" _ _ _ _ ledger
           ledger_dates_readable Hs He).
Defined.

Lemma filter_transactions_empty_range_witness :
  dates_readable (transactions (self ledger))
  ∧ ¬ date_le (Date 2024 1 10) (Date 2024 1 5)
  ∧ filter_transactions "All" "All" (Some (Date 2024 1 10)) (Some (Date 2024 1 5)) ledger
    = (Return [], ledger).
Proof.
  assert (Hse : ¬ date_le (Date 2024 1 10) (Date 2024 1 5))
    by (unfold date_le; cbn; lia).
  split; [exact ledger_dates_readable|]. split; [exact Hse|].
  exact (filter_transactions_empty_range "All" "All" _ _ ledger ledger_dates_readable Hse).
Defined.

Lemma category_views_partition_witness :
  dates_readable (transactions (self ledger))
  ∧ ∃ views all,
      Forall2 (λ c view, filter_transactions c "All" None None ledger = (Return view, ledger))
              category_choices views
      ∧ filter_transactions "All" "All" None None ledger = (Return all, ledger)
      ∧ concat views ≡ₚ all.
Proof.
  split; [exact ledger_dates_readable|].
  exact (category_views_partition "All" None None ledger ledger_dates_readable).
Defined.

Lemma added_transaction_found_witness :
  valid_date (Date 2024 2 29)
  ∧ dates_readable (transactions (self ledger))
  ∧ ∃ w' out,
      @add_transaction TallyCodec.codec (Qc_of_Z 12) "Books" (Date 2024 2 29) "Expense" ledger
      = (Return tt, w')
      ∧ filter_transactions "All" "All" (Some (Date 2024 2 29)) (Some (Date 2024 2 29)) w'
        = (Return out, w')
      ∧ Transaction (Qc_of_Z 12) "Books" (isoformat (Date 2024 2 29)) "Expense" ∈ out.
Proof.
  assert (Hvalid : valid_date (Date 2024 2 29)) by compute_done.
  split; [exact Hvalid|]. split; [exact ledger_dates_readable|].
  destruct (@added_transaction_found TallyCodec.codec (Qc_of_Z 12) "Books" (Date 2024 2 29)
              "Expense" ledger Hvalid ledger_dates_readable)
    as (w' & out & Hadd & Hrun & Hin & _).
  exists w', out. split; [exact Hadd|]. split; [exact Hrun|exact Hin].
Defined.

Lemma ledger_amounts_nonneg :
  Forall (λ t, (0 ≤ t_amount t)%Qc) (transactions (self ledger)).
Proof. repeat constructor; compute_done. Defined.

Lemma breakdown_percentages_bounds_witness :
  Forall (λ t, (0 ≤ t_amount t)%Qc) (transactions (self ledger))
  ∧ ∀ c p,
      (c, p) ∈ (calculate_category_breakdown (transactions (self ledger))).1
      ∨ (c, p) ∈ (calculate_category_breakdown (transactions (self ledger))).2 →
      (0 ≤ p ≤ Qc_of_Z 100)%Qc.
Proof.
  split; [exact ledger_amounts_nonneg|].
  exact (breakdown_percentages_bounds _ ledger_amounts_nonneg).
Defined.

Lemma filter_transactions_outcome_witness :
  (is_Some (None : option date) ∨ is_Some (Some (Date 2024 1 5)) →
   dates_readable
     (filter (type_pred "All") (filter (category_pred "Salary") (transactions (self misdated)))))
  ∧ filter_transactions "Salary" "All" None (Some (Date 2024 1 5)) misdated
    = (Return (filter (selected "Salary" "All" None (Some (Date 2024 1 5)))
                 (transactions (self misdated))), misdated).
Proof.
  assert (Hgood : is_Some (None : option date) ∨ is_Some (Some (Date 2024 1 5)) →
                  dates_readable
                    (filter (type_pred "All")
                       (filter (category_pred "Salary") (transactions (self misdated))))).
  { intros _. vm_compute. constructor. }
  split; [exact Hgood|].
  exact (proj1 (filter_transactions_outcome "Salary" "All" None (Some (Date 2024 1 5))
                  misdated) Hgood).
Defined.
